(** * vashishta_simulator/computer.py: launch targets for LAMMPS

    A shallow embedding of [computer.py].  The module builds [mpirun]
    command lines, writes Slurm job scripts and hands both to the shell.
    Python objects that are mutated through a reference (the option
    dictionaries) live in an explicit store, so that the sharing created by
    [self.args = args] and by default arguments is visible.  Whether
    [open] lets a job script be written is the file system's answer, given
    to the general calls as [can_open]. *)

From Stdlib Require Import Ascii.
From stdpp Require Import base strings list gmap pretty.

Local Open Scope Z_scope.

(** ** Python strings and dictionaries *)

(** The line break written as [\n] in the source. *)
Definition nl : string := String "010"%char "".

(** [f.write(s)] on a text file opened for writing: the buffer grows at its
    end. *)
Definition write (f s : string) : string := f +:+ s.

(** A Python [dict] with string keys and values: the items in insertion
    order.  Keys are unique in every dictionary Python can build
    ([wf_dict]). *)
Abbreviation dict := (list (string * string)).

Definition keys (d : dict) : list string := d.*1.

Definition wf_dict (d : dict) : Prop := NoDup (keys d).

(** [d.get(k)] *)
Fixpoint dict_get (k : string) (d : dict) : option string :=
  match d with
  | [] => None
  | (k', v) :: d' => if decide (k' = k) then Some v else dict_get k d'
  end.

(** [d[k] = v]: an existing key keeps its position and takes the new value,
    a new key goes to the end. *)
Fixpoint dict_set (k v : string) (d : dict) : dict :=
  match d with
  | [] => [(k, v)]
  | (k', v') :: d' =>
      if decide (k' = k) then (k', v) :: d' else (k', v') :: dict_set k v d'
  end.

(** [d.update(items)] *)
Definition dict_update (d : dict) (items : list (string * string)) : dict :=
  fold_left (λ acc kv, dict_set kv.1 kv.2 acc) items d.

(** The display [{k1: v1, ..., kn: vn}]. *)
Definition dict_display (items : list (string * string)) : dict :=
  dict_update [] items.

(** The display [{**a, **b}]: a new dictionary, [a]'s items then [b]'s. *)
Definition dict_merge (a b : dict) : dict :=
  dict_update (dict_update [] a) b.

(** Number of entries of [d] stored under key [k]. *)
Definition entries (k : string) (d : dict) : nat :=
  length (filter (λ kv, kv.1 = k) d).

(** ** The store, the file system and the shell *)

(** References to dictionary objects. *)
Abbreviation ref := nat (only parsing).

Record world : Type := World {
  heap : list dict;            (* dictionary objects, by reference *)
  files : gmap string string;  (* text files, by path *)
  shell : list string          (* commands given to [os.system], oldest first *)
}.

Definition set_heap (h : list dict) (w : world) : world :=
  {| heap := h; files := files w; shell := shell w |}.

Inductive exn : Type :=
  | NotImplementedError (msg : string)
  | OSError (path : string)   (* [open] could not open the path *)
  | InvalidRef (r : ref).   (* a reference to no object; Python has none *)

Inductive result (A : Type) : Type :=
  | Ok (a : A) (w : world)
  | Raise (e : exn) (w : world).
Arguments Ok {A} a w.
Arguments Raise {A} e w.

(** Computations that read and change the world and may raise. *)
Definition M (A : Type) : Type := world → result A.

#[global] Instance M_ret : MRet M := λ A a w, Ok a w.

#[global] Instance M_bind : MBind M := λ A B k m w,
  match m w with
  | Ok a w' => k a w'
  | Raise e w' => Raise e w'
  end.

Definition raise {A : Type} (e : exn) : M A := λ w, Raise e w.

(** A new dictionary object holding [d]. *)
Definition dict_new (d : dict) : M ref := λ w,
  Ok (length (heap w)) (set_heap (heap w ++ [d]) w).

(** The items of the object at [r]. *)
Definition dict_items (r : ref) : M dict := λ w,
  match heap w !! r with
  | Some d => Ok d w
  | None => Raise (InvalidRef r) w
  end.

(** [r[k] = v], in place. *)
Definition dict_setitem (r : ref) (k v : string) : M () := λ w,
  match heap w !! r with
  | Some d => Ok () (set_heap (<[r := dict_set k v d]> (heap w)) w)
  | None => Raise (InvalidRef r) w
  end.

(** [os.system(cmd)]; what the command does is outside the program. *)
Definition os_system (cmd : string) : M () := λ w,
  Ok () {| heap := heap w; files := files w; shell := shell w ++ [cmd] |}.

(** Closing a file opened with mode ["w"]: the path now holds exactly what
    was written. *)
Definition write_file (path content : string) : M () := λ w,
  Ok () {| heap := heap w; files := <[path := content]> (files w);
           shell := shell w |}.

(** [open(path, "w")].  Whether a path can be opened for writing (it is not
    empty, its directory exists, the user may write there) is a matter of
    the file system, which the program never changes; it is given as
    [can_open]. *)
Definition open_w (can_open : string → bool) (path : string) : M () := λ w,
  if can_open path then Ok () w else Raise (OSError path) w.

(** ** class Computer *)

Module Computer.

(** The dictionary made once, at [def], for the default [args={}]. *)
Definition args_default : ref := 0%nat.

Definition init (cls : string) (lmp_exec : string) (args : ref) : M () :=
  raise (NotImplementedError
           ("Class " +:+ cls +:+ " has no instance '__init__'.")).

Definition call (cls : string) (lmp_script : string) (var : dict) : M () :=
  raise (NotImplementedError
           ("Class " +:+ cls +:+ " has no instance '__call__'.")).

Definition run_lammps (num_procs : Z) (lmp_exec : string)
    (args var : dict) : string :=
  let call_string := "mpirun -n " +:+ pretty num_procs +:+ " "
                       +:+ lmp_exec +:+ " " in
  let call_string :=
    fold_left (λ call_string '(key, value),
                 call_string +:+ (key +:+ " " +:+ value +:+ " "))
              args call_string in
  let call_string :=
    fold_left (λ call_string '(key, value),
                 call_string +:+ ("-var " +:+ key +:+ " " +:+ value +:+ " "))
              var call_string in
  call_string.

End Computer.

(** ** class CPU(Computer) *)

Module CPU.

Record t : Type := Build {
  num_procs : Z;
  lmp_exec : string;
  args : ref
}.

Definition default_num_procs : Z := 4.
Definition default_lmp_exec : string := "lmp_mpi".
Definition args_default : ref := 1%nat.

Definition init (num_procs : Z) (lmp_exec : string) (args : ref) : M t :=
  mret {| num_procs := num_procs; lmp_exec := lmp_exec; args := args |}.

(** [CPU(...)] with the keyword arguments that are given. *)
Definition new (num_procs : option Z) (lmp_exec : option string)
    (args : option ref) : M t :=
  init (default default_num_procs num_procs)
       (default default_lmp_exec lmp_exec)
       (default args_default args).

(** [self(lmp_script, var)] for a [var] that no one else holds, such as a
    dictionary display: what it holds is [var] throughout the call. *)
Definition call (self : t) (lmp_script : string) (var : dict) : M () :=
  dict_setitem (args self) "-in" lmp_script;;
  a ← dict_items (args self);
  let call_string :=
    Computer.run_lammps (num_procs self) (lmp_exec self) a var in
  os_system call_string.

(** [self(lmp_script, var)] for any dictionary object [var], which may be
    [self.args] itself: the variables are read when the command is built,
    after ["-in"] is assigned. *)
Definition call_ref (self : t) (lmp_script : string) (var : ref) : M () :=
  dict_setitem (args self) "-in" lmp_script;;
  a ← dict_items (args self);
  v ← dict_items var;
  let call_string :=
    Computer.run_lammps (num_procs self) (lmp_exec self) a v in
  os_system call_string.

End CPU.

(** ** class GPU(Computer) *)

Module GPU.

Record t : Type := Build {
  gpu_per_node : Z;
  lmp_exec : string;
  args : ref
}.

Definition default_gpu_per_node : Z := 1.
Definition default_lmp_exec : string := "lmp_kokkos_cuda_mpi".
Definition args_default : ref := 2%nat.

Definition default_args (gpu_per_node : Z) : dict :=
  dict_display [("-pk", "kokkos newton on comm no");
                ("-k", "on g " +:+ pretty gpu_per_node);
                ("-sf", "kk")].

Definition init (gpu_per_node : Z) (lmp_exec : string) (args : ref) : M t :=
  a ← dict_items args;
  self_args ← dict_new (dict_merge (default_args gpu_per_node) a);
  mret {| gpu_per_node := gpu_per_node; lmp_exec := lmp_exec;
          args := self_args |}.

Definition new (gpu_per_node : option Z) (lmp_exec : option string)
    (args : option ref) : M t :=
  init (default default_gpu_per_node gpu_per_node)
       (default default_lmp_exec lmp_exec)
       (default args_default args).

(** [self(lmp_script, var)] for a [var] that no one else holds. *)
Definition call (self : t) (lmp_script : string) (var : dict) : M () :=
  dict_setitem (args self) "-in" lmp_script;;
  a ← dict_items (args self);
  let call_string :=
    Computer.run_lammps (gpu_per_node self) (lmp_exec self) a var in
  os_system call_string.

(** [self(lmp_script, var)] for any dictionary object [var]. *)
Definition call_ref (self : t) (lmp_script : string) (var : ref) : M () :=
  dict_setitem (args self) "-in" lmp_script;;
  a ← dict_items (args self);
  v ← dict_items var;
  let call_string :=
    Computer.run_lammps (gpu_per_node self) (lmp_exec self) a v in
  os_system call_string.

End GPU.

(** ** class SlurmCPU(Computer) *)

Module SlurmCPU.

Record t : Type := Build {
  num_nodes : Z;
  num_procs : Z;
  lmp_exec : string;
  lmp_module : string;
  generate_jobscript : bool;
  jobscript : string;
  settings : ref;
  args : ref
}.

Definition default_lmp_exec : string := "lmp_mpi".
Definition settings_default : ref := 3%nat.
Definition args_default : ref := 4%nat.
Definition default_procs_per_node : Z := 16.
Definition default_lmp_module : string := "LAMMPS/13Mar18-foss-2018a".
Definition default_generate_jobscript : bool := true.
Definition default_jobscript : string := "jobscript".

Definition default_settings (num_procs num_nodes : Z) : dict :=
  dict_display [("job-name", "CPU-job");
                ("account", "nn9272k");
                ("time", "05:00:00");
                ("partition", "normal");
                ("ntasks", pretty num_procs);
                ("nodes", pretty num_nodes);
                ("output", "slurm.out")].

Definition init (num_nodes : Z) (lmp_exec : string) (settings args : ref)
    (procs_per_node : Z) (lmp_module : string) (generate_jobscript : bool)
    (jobscript : string) : M t :=
  let num_procs := num_nodes * procs_per_node in
  s ← dict_items settings;
  self_settings ←
    dict_new (dict_merge (default_settings num_procs num_nodes) s);
  mret {| num_nodes := num_nodes; num_procs := num_procs;
          lmp_exec := lmp_exec; lmp_module := lmp_module;
          generate_jobscript := generate_jobscript;
          jobscript := jobscript;
          settings := self_settings; args := args |}.

Definition new (num_nodes : Z) (lmp_exec : option string)
    (settings args : option ref) (procs_per_node : option Z)
    (lmp_module : option string) (generate_jobscript : option bool)
    (jobscript : option string) : M t :=
  init num_nodes
       (default default_lmp_exec lmp_exec)
       (default settings_default settings)
       (default args_default args)
       (default default_procs_per_node procs_per_node)
       (default default_lmp_module lmp_module)
       (default default_generate_jobscript generate_jobscript)
       (default default_jobscript jobscript).

(** What the body of the [with] block writes to the file. *)
Definition jobscript_text (self : t) (settings args var : dict) : string :=
  let f := "" in
  let f := write f ("#!/bin/bash" +:+ nl +:+ nl) in
  let f :=
    fold_left (λ f '(key, setting),
                 write f ("#SBATCH --" +:+ key +:+ "=" +:+ setting +:+ nl
                            +:+ "#" +:+ nl))
              settings f in
  let f := write f ("## Set up job environment:" +:+ nl) in
  let f := write f ("source /cluster/bin/jobsetup" +:+ nl) in
  let f := write f ("module purge" +:+ nl) in
  let f := write f ("set -o errexit" +:+ nl +:+ nl) in
  let f := write f ("module load " +:+ lmp_module self +:+ nl +:+ nl) in
  let f := write f (Computer.run_lammps (num_procs self) (lmp_exec self)
                      args var) in
  f.

(** [self.gen_jobscript(args, var)] where the path of the script can be
    opened and [var] is held by no one else. *)
Definition gen_jobscript (self : t) (args : ref) (var : dict) : M () :=
  s ← dict_items (settings self);
  a ← dict_items args;
  write_file (jobscript self) (jobscript_text self s a var).

(** [self(lmp_script, var)] under the same two conditions. *)
Definition call (self : t) (lmp_script : string) (var : dict) : M () :=
  dict_setitem (args self) "-in" lmp_script;;
  (if generate_jobscript self
   then gen_jobscript self (args self) var
   else mret ());;
  os_system ("sbatch " +:+ jobscript self).

(** [self.gen_jobscript(args, var)] in general: [open] comes first and may
    fail, and [var] is any dictionary object. *)
Definition gen_jobscript_ref (can_open : string → bool) (self : t)
    (args var : ref) : M () :=
  open_w can_open (jobscript self);;
  s ← dict_items (settings self);
  a ← dict_items args;
  v ← dict_items var;
  write_file (jobscript self) (jobscript_text self s a v).

(** [self(lmp_script, var)] in general. *)
Definition call_ref (can_open : string → bool) (self : t)
    (lmp_script : string) (var : ref) : M () :=
  dict_setitem (args self) "-in" lmp_script;;
  (if generate_jobscript self
   then gen_jobscript_ref can_open self (args self) var
   else mret ());;
  os_system ("sbatch " +:+ jobscript self).

End SlurmCPU.

(** ** class SlurmGPU(Computer) *)

Module SlurmGPU.

Record t : Type := Build {
  gpu_per_node : Z;
  lmp_exec : string;
  generate_jobscript : bool;
  jobscript : string;
  args : ref;
  settings : ref
}.

Definition default_gpu_per_node : Z := 1.
Definition default_lmp_exec : string := "lmp".
Definition settings_default : ref := 5%nat.
Definition args_default : ref := 6%nat.
Definition default_generate_jobscript : bool := true.
Definition default_jobscript : string := "jobscript".

Definition default_settings (gpu_per_node : Z) : dict :=
  dict_display [("job-name", "GPU-job");
                ("partition", "normal");
                ("ntasks", pretty gpu_per_node);
                ("cpus-per-task", "2");
                ("gres", "gpu:" +:+ pretty gpu_per_node);
                ("output", "slurm.out")].

Definition default_args (gpu_per_node : Z) : dict :=
  dict_display [("-pk", "kokkos newton on neigh half");
                ("-k", "on g " +:+ pretty gpu_per_node);
                ("-sf", "kk")].

Definition init (gpu_per_node : Z) (lmp_exec : string) (settings args : ref)
    (generate_jobscript : bool) (jobscript : string) : M t :=
  a ← dict_items args;
  self_args ← dict_new (dict_merge (default_args gpu_per_node) a);
  s ← dict_items settings;
  self_settings ← dict_new (dict_merge (default_settings gpu_per_node) s);
  mret {| gpu_per_node := gpu_per_node; lmp_exec := lmp_exec;
          generate_jobscript := generate_jobscript;
          jobscript := jobscript;
          args := self_args; settings := self_settings |}.

Definition new (gpu_per_node : option Z) (lmp_exec : option string)
    (settings args : option ref) (generate_jobscript : option bool)
    (jobscript : option string) : M t :=
  init (default default_gpu_per_node gpu_per_node)
       (default default_lmp_exec lmp_exec)
       (default settings_default settings)
       (default args_default args)
       (default default_generate_jobscript generate_jobscript)
       (default default_jobscript jobscript).

Definition jobscript_text (self : t) (settings args var : dict) : string :=
  let f := "" in
  let f := write f ("#!/bin/bash" +:+ nl +:+ nl) in
  let f :=
    fold_left (λ f '(key, setting),
                 write f ("#SBATCH --" +:+ key +:+ "=" +:+ setting +:+ nl
                            +:+ "#" +:+ nl))
              settings f in
  let f := write f ("echo $CUDA_VISIBLE_DEVICES" +:+ nl) in
  let f := write f (Computer.run_lammps (gpu_per_node self) (lmp_exec self)
                      args var) in
  f.

(** [self.gen_jobscript(args, var)] where the path of the script can be
    opened and [var] is held by no one else. *)
Definition gen_jobscript (self : t) (args : ref) (var : dict) : M () :=
  s ← dict_items (settings self);
  a ← dict_items args;
  write_file (jobscript self) (jobscript_text self s a var).

(** [self(lmp_script, var)] under the same two conditions. *)
Definition call (self : t) (lmp_script : string) (var : dict) : M () :=
  dict_setitem (args self) "-in" lmp_script;;
  (if generate_jobscript self
   then gen_jobscript self (args self) var
   else mret ());;
  os_system ("sbatch " +:+ jobscript self).

(** [self.gen_jobscript(args, var)] in general: [open] comes first and may
    fail, and [var] is any dictionary object. *)
Definition gen_jobscript_ref (can_open : string → bool) (self : t)
    (args var : ref) : M () :=
  open_w can_open (jobscript self);;
  s ← dict_items (settings self);
  a ← dict_items args;
  v ← dict_items var;
  write_file (jobscript self) (jobscript_text self s a v).

(** [self(lmp_script, var)] in general. *)
Definition call_ref (can_open : string → bool) (self : t)
    (lmp_script : string) (var : ref) : M () :=
  dict_setitem (args self) "-in" lmp_script;;
  (if generate_jobscript self
   then gen_jobscript_ref can_open self (args self) var
   else mret ());;
  os_system ("sbatch " +:+ jobscript self).

End SlurmGPU.

(** ** The module after import *)

(** The store holds the seven dictionaries made for the default arguments
    [args={}] and [settings={}], in the order of the [def]s. *)
Definition initial_world : world :=
  {| heap := replicate 7 []; files := ∅; shell := [] |}.

(** ** Launch targets, uniformly *)

Inductive target : Type :=
  | OnCPU (self : CPU.t)
  | OnGPU (self : GPU.t)
  | OnSlurmCPU (self : SlurmCPU.t)
  | OnSlurmGPU (self : SlurmGPU.t).

(** [self(lmp_script, var)] *)
Definition launch (t : target) (lmp_script : string) (var : dict) : M () :=
  match t with
  | OnCPU self => CPU.call self lmp_script var
  | OnGPU self => GPU.call self lmp_script var
  | OnSlurmCPU self => SlurmCPU.call self lmp_script var
  | OnSlurmGPU self => SlurmGPU.call self lmp_script var
  end.

(** [self.args] *)
Definition target_args (t : target) : ref :=
  match t with
  | OnCPU self => CPU.args self
  | OnGPU self => GPU.args self
  | OnSlurmCPU self => SlurmCPU.args self
  | OnSlurmGPU self => SlurmGPU.args self
  end.

(** The call of [run_lammps] each class makes, for stored options [args]. *)
Definition command_line (t : target) (args var : dict) : string :=
  match t with
  | OnCPU self =>
      Computer.run_lammps (CPU.num_procs self) (CPU.lmp_exec self) args var
  | OnGPU self =>
      Computer.run_lammps (GPU.gpu_per_node self) (GPU.lmp_exec self) args var
  | OnSlurmCPU self =>
      Computer.run_lammps (SlurmCPU.num_procs self) (SlurmCPU.lmp_exec self)
        args var
  | OnSlurmGPU self =>
      Computer.run_lammps (SlurmGPU.gpu_per_node self) (SlurmGPU.lmp_exec self)
        args var
  end.

(** [self(lmp_script, var)] for any dictionary object [var] and any state of
    the file system. *)
Definition launch_ref (can_open : string → bool) (t : target)
    (lmp_script : string) (var : ref) : M () :=
  match t with
  | OnCPU self => CPU.call_ref self lmp_script var
  | OnGPU self => GPU.call_ref self lmp_script var
  | OnSlurmCPU self => SlurmCPU.call_ref can_open self lmp_script var
  | OnSlurmGPU self => SlurmGPU.call_ref can_open self lmp_script var
  end.

(** A sequence of launches on one target, oldest first; an error ends it. *)
Fixpoint launches_ref (can_open : string → bool) (t : target)
    (runs : list (string * ref)) : M () :=
  match runs with
  | [] => mret ()
  | (lmp_script, var) :: runs' =>
      launch_ref can_open t lmp_script var;; launches_ref can_open t runs'
  end.

(** The job script a launch on [t] writes, if it writes one. *)
Definition script_written (t : target) : option string :=
  match t with
  | OnCPU _ | OnGPU _ => None
  | OnSlurmCPU self =>
      if SlurmCPU.generate_jobscript self
      then Some (SlurmCPU.jobscript self) else None
  | OnSlurmGPU self =>
      if SlurmGPU.generate_jobscript self
      then Some (SlurmGPU.jobscript self) else None
  end.

(** The file system lets [t] write its job script. *)
Definition can_write (can_open : string → bool) (t : target) : Prop :=
  ∀ path, script_written t = Some path → can_open path = true.

(** The start of every command of [t]: [mpirun], the process count, the
    executable. *)
Definition command_head (t : target) : string :=
  match t with
  | OnCPU self =>
      "mpirun -n " +:+ pretty (CPU.num_procs self) +:+ " "
        +:+ CPU.lmp_exec self +:+ " "
  | OnGPU self =>
      "mpirun -n " +:+ pretty (GPU.gpu_per_node self) +:+ " "
        +:+ GPU.lmp_exec self +:+ " "
  | OnSlurmCPU self =>
      "mpirun -n " +:+ pretty (SlurmCPU.num_procs self) +:+ " "
        +:+ SlurmCPU.lmp_exec self +:+ " "
  | OnSlurmGPU self =>
      "mpirun -n " +:+ pretty (SlurmGPU.gpu_per_node self) +:+ " "
        +:+ SlurmGPU.lmp_exec self +:+ " "
  end.

(** The path of the job script of a Slurm target. *)
Definition target_jobscript (t : target) : option string :=
  match t with
  | OnCPU _ | OnGPU _ => None
  | OnSlurmCPU self => Some (SlurmCPU.jobscript self)
  | OnSlurmGPU self => Some (SlurmGPU.jobscript self)
  end.

(** Where the latest launch on [t] left its command [cmd], [w] being the
    world before the launches and [w'] the one after: the local classes
    gave it to the shell; the Slurm classes wrote it at the end of the job
    script, on a line of its own, and gave the shell [sbatch]; a Slurm
    class that does not generate its script rendered no command and wrote
    no file. *)
Definition rendered_last (t : target) (w w' : world) (cmd : string) : Prop :=
  match target_jobscript t with
  | None => last (shell w') = Some cmd
  | Some path =>
      last (shell w') = Some ("sbatch " +:+ path)
      ∧ match script_written t with
        | Some _ => ∃ pre, files w' !! path = Some (pre +:+ nl +:+ cmd)
        | None => files w' = files w
        end
  end.

(** The dictionaries a target reads are in the store. *)
Definition target_ok (t : target) (w : world) : Prop :=
  match t with
  | OnCPU _ | OnGPU _ => True
  | OnSlurmCPU self => is_Some (heap w !! SlurmCPU.settings self)
  | OnSlurmGPU self => is_Some (heap w !! SlurmGPU.settings self)
  end.

(** Where a launch leaves the command it renders from the stored options
    [args]: with the shell for the local classes, at the end of the job
    script for the Slurm classes when they generate one. *)
Definition rendered (t : target) (w : world) (args var : dict) : Prop :=
  match t with
  | OnCPU _ | OnGPU _ => last (shell w) = Some (command_line t args var)
  | OnSlurmCPU self =>
      SlurmCPU.generate_jobscript self = true →
      ∃ pre, files w !! SlurmCPU.jobscript self
             = Some (pre +:+ command_line t args var)
  | OnSlurmGPU self =>
      SlurmGPU.generate_jobscript self = true →
      ∃ pre, files w !! SlurmGPU.jobscript self
             = Some (pre +:+ command_line t args var)
  end.

(** ** Text: joining and splitting *)

(** [''.join(l)] *)
Definition join (l : list string) : string := foldr String.append "" l.

(** [s.split('\n')] *)
Fixpoint split_lines (s : string) : list string :=
  match s with
  | "" => [""]
  | String c s' =>
      if decide (c = "010"%char) then "" :: split_lines s'
      else match split_lines s' with
           | [] => [String c ""]
           | l :: ls => String c l :: ls
           end
  end.

(** [s] holds no line break. *)
Fixpoint single_line (s : string) : bool :=
  match s with
  | "" => true
  | String c s' => if decide (c = "010"%char) then false else single_line s'
  end.

(** How [run_lammps] renders one option and one variable. *)
Definition option_segment (kv : string * string) : string :=
  kv.1 +:+ " " +:+ kv.2 +:+ " ".

Definition variable_segment (kv : string * string) : string :=
  "-var " +:+ kv.1 +:+ " " +:+ kv.2 +:+ " ".

(** The words of a command, in order. *)
Definition command_tokens (num_procs : Z) (lmp_exec : string)
    (args var : dict) : list string :=
  ["mpirun"; "-n"; pretty num_procs; lmp_exec]
    ++ flat_map (λ kv, [kv.1; kv.2]) args
    ++ flat_map (λ kv, ["-var"; kv.1; kv.2]) var.

(** The stored dictionary is [defaults] overridden by [caller]. *)
Definition overrides (defaults caller stored : dict) : Prop :=
  ∀ k, dict_get k stored
       = match dict_get k caller with
         | Some v => Some v
         | None => dict_get k defaults
         end.

(** The step from [w] to [w'] made the object [r], which holds [defaults]
    overridden by [caller]; the objects of [w] are as they were. *)
Definition fresh_merge (w w' : world) (r : ref) (defaults caller : dict) : Prop :=
  heap w !! r = None
  ∧ (∃ stored, heap w' !! r = Some stored
               ∧ stored = dict_merge defaults caller
               ∧ overrides defaults caller stored)
  ∧ (∀ r', is_Some (heap w !! r') → heap w' !! r' = heap w !! r').

(** The value stored under [k] in the object [r], if any. *)
Definition stored_value (w : world) (r : ref) (k : string) : option string :=
  heap w !! r ≫= dict_get k.

(** ** Job scripts, line by line *)

Definition last_line (text : string) : option string :=
  last (split_lines text).

(** The lines a string holds no line break in any of. *)
Definition single_line_items (d : dict) : Prop :=
  Forall (λ kv, single_line kv.1 = true ∧ single_line kv.2 = true) d.

(** The two lines written for one scheduler setting. *)
Definition directive_lines (kv : string * string) : list string :=
  ["#SBATCH --" +:+ kv.1 +:+ "=" +:+ kv.2; "#"].

(** A line that loads or purges environment modules, or turns on the exit
    at the first error. *)
Definition module_or_errexit_line (l : string) : bool :=
  String.prefix "module load" l
  || bool_decide (l = "module purge")
  || bool_decide (l = "set -o errexit").

(** The job script of [SlurmCPU] as the sentence on its layout reads: the
    shebang line, one directive line per setting, the three lines that set
    up the environment, the line that loads the module, the command. *)
Definition layout_as_described (settings : dict) (lmp_module cmd : string)
    : list string :=
  ["#!/bin/bash"]
    ++ ((λ kv, "#SBATCH --" +:+ kv.1 +:+ "=" +:+ kv.2) <$> settings)
    ++ ["source /cluster/bin/jobsetup"; "module purge"; "set -o errexit"]
    ++ ["module load " +:+ lmp_module]
    ++ [cmd].

(** ** Errors *)

(** The computation stops with a [NotImplementedError]. *)
Definition signals_unimplemented {A : Type} (r : result A) : Prop :=
  ∃ msg w, r = Raise (NotImplementedError msg) w.

(** * Properties *)

(** ** Strings *)

Lemma append_cons (x : ascii) (a b : string) :
  String x a +:+ b = String x (a +:+ b).
Proof. reflexivity. Qed.

Lemma append_assoc (a b c : string) : (a +:+ b) +:+ c = a +:+ (b +:+ c).
Proof. induction a as [|x a IH]; [done|]. by rewrite !append_cons, IH. Qed.

Lemma append_empty_r (a : string) : a +:+ "" = a.
Proof. induction a as [|x a IH]; [done|]. by rewrite append_cons, IH. Qed.

Lemma join_cons (x : string) (l : list string) : join (x :: l) = x +:+ join l.
Proof. reflexivity. Qed.

Lemma join_app (l1 l2 : list string) : join (l1 ++ l2) = join l1 +:+ join l2.
Proof.
  induction l1 as [|x l1 IH]; [done|].
  by rewrite <- app_comm_cons, !join_cons, IH, append_assoc.
Qed.

(** A loop that appends one piece per item builds the join of the pieces. *)
Lemma fold_left_append {A : Type} (g : string → A → string) (f : A → string)
    (l : list A) (acc : string) :
  (∀ acc x, g acc x = acc +:+ f x) →
  fold_left g l acc = acc +:+ join (f <$> l).
Proof.
  intros Hg. revert acc.
  induction l as [|x l IH]; intros acc; cbn [fold_left fmap list_fmap].
  - by rewrite append_empty_r.
  - by rewrite IH, Hg, join_cons, append_assoc.
Qed.

Lemma run_lammps_join (num_procs : Z) (lmp_exec : string) (args var : dict) :
  Computer.run_lammps num_procs lmp_exec args var
  = ("mpirun -n " +:+ pretty num_procs +:+ " " +:+ lmp_exec +:+ " ")
      +:+ join (option_segment <$> args)
      +:+ join (variable_segment <$> var).
Proof.
  unfold Computer.run_lammps.
  rewrite (fold_left_append _ variable_segment) by (by intros ? []).
  rewrite (fold_left_append _ option_segment) by (by intros ? []).
  by rewrite append_assoc.
Qed.

Lemma join_option_tokens (args : dict) :
  join ((λ tok, tok +:+ " ") <$> (flat_map (λ kv, [kv.1; kv.2]) args))
  = join (option_segment <$> args).
Proof.
  induction args as [|[k v] args IH]; [done|].
  cbn [flat_map fmap list_fmap app]. rewrite !join_cons, IH.
  unfold option_segment. cbn [fst snd]. by rewrite !append_assoc.
Qed.

Lemma join_variable_tokens (var : dict) :
  join ((λ tok, tok +:+ " ") <$> (flat_map (λ kv, ["-var"; kv.1; kv.2]) var))
  = join (variable_segment <$> var).
Proof.
  induction var as [|[k v] var IH]; [done|].
  cbn [flat_map fmap list_fmap app]. rewrite !join_cons, IH.
  unfold variable_segment. cbn [fst snd]. by rewrite !append_assoc.
Qed.

(** ** The command builder *)

(** C1. [run_lammps] returns one string: the words [mpirun], [-n], the
    process count and the executable, then key and value of each option,
    then [-var], name and value of each variable, every word followed by one
    space.  For 4 processes of [lmp_mpi] with the option [-in in.melt] and
    the variable [T = 300] this is the string
    [mpirun -n 4 lmp_mpi -in in.melt -var T 300 ]. *)
Theorem run_lammps_command_string :
  (∀ (num_procs : Z) (lmp_exec : string) (args var : dict),
     Computer.run_lammps num_procs lmp_exec args var
     = join ((λ tok, tok +:+ " ")
               <$> command_tokens num_procs lmp_exec args var)
     ∧ Computer.run_lammps num_procs lmp_exec args var
       = "mpirun -n " +:+ pretty num_procs +:+ " " +:+ lmp_exec +:+ " "
           +:+ join ((λ kv, kv.1 +:+ " " +:+ kv.2 +:+ " ") <$> args)
           +:+ join ((λ kv, "-var " +:+ kv.1 +:+ " " +:+ kv.2 +:+ " ") <$> var))
  ∧ Computer.run_lammps 4 "lmp_mpi" [("-in", "in.melt")] [("T", "300")]
    = "mpirun -n 4 lmp_mpi -in in.melt -var T 300 ".
Proof.
  split; [|reflexivity].
  intros num_procs lmp_exec args var. rewrite run_lammps_join. split.
  - unfold command_tokens.
    rewrite !fmap_app, !join_app, join_option_tokens, join_variable_tokens.
    cbn [fmap list_fmap]. rewrite !join_cons. cbn [join foldr].
    by rewrite append_empty_r, !append_assoc.
  - by rewrite !append_assoc.
Qed.

(** C2. The command holds one piece per option and one per variable and
    nothing else after its head: the pieces of the options come first, in
    the order of the option dictionary, each being key and value of its
    entry; the pieces of the variables follow, in the order of the variable
    dictionary, each being [-var], name and value of its entry. *)
Theorem run_lammps_pairs_in_order (num_procs : Z) (lmp_exec : string)
    (args var : dict) :
  ∃ segments : list string,
    Computer.run_lammps num_procs lmp_exec args var
    = ("mpirun -n " +:+ pretty num_procs +:+ " " +:+ lmp_exec +:+ " ")
        +:+ join segments
    ∧ length segments = (length args + length var)%nat
    ∧ (∀ (i : nat) (key value : string),
         args !! i = Some (key, value) →
         segments !! i = Some (key +:+ " " +:+ value +:+ " "))
    ∧ (∀ (j : nat) (name value : string),
         var !! j = Some (name, value) →
         segments !! (length args + j)%nat
         = Some ("-var " +:+ name +:+ " " +:+ value +:+ " ")).
Proof.
  exists ((option_segment <$> args) ++ (variable_segment <$> var)).
  split; [|split; [|split]].
  - by rewrite run_lammps_join, join_app.
  - by rewrite length_app, !length_fmap.
  - intros i key value Hi.
    rewrite lookup_app_l by (rewrite length_fmap; by eapply lookup_lt_Some).
    by rewrite list_lookup_fmap, Hi.
  - intros j name value Hj.
    rewrite lookup_app_r by (rewrite length_fmap; lia).
    rewrite length_fmap, Nat.add_comm, Nat.add_sub.
    by rewrite list_lookup_fmap, Hj.
Qed.

(** ** Dictionaries *)

Lemma dict_get_set_eq (k v : string) (d : dict) :
  dict_get k (dict_set k v d) = Some v.
Proof.
  induction d as [|[k' v'] d IH]; cbn.
  - by rewrite decide_True.
  - destruct (decide (k' = k)) as [->|Hne]; cbn.
    + by rewrite decide_True.
    + by rewrite decide_False.
Qed.

Lemma dict_get_set_ne (k k' v : string) (d : dict) :
  k ≠ k' → dict_get k' (dict_set k v d) = dict_get k' d.
Proof.
  intros Hne. induction d as [|[k0 v0] d IH]; cbn.
  - by rewrite decide_False.
  - destruct (decide (k0 = k)) as [->|Hne0]; cbn.
    + by rewrite !decide_False.
    + by rewrite IH.
Qed.

Lemma dict_get_None (k : string) (d : dict) :
  k ∉ keys d → dict_get k d = None.
Proof.
  unfold keys. induction d as [|[k' v'] d IH]; [done|].
  cbn. intros [Hne Hnin]%not_elem_of_cons.
  rewrite decide_False by done. by apply IH.
Qed.

Lemma dict_get_Some_key (k v : string) (d : dict) :
  dict_get k d = Some v → k ∈ keys d.
Proof.
  unfold keys. induction d as [|[k' v'] d IH]; [done|].
  cbn. destruct (decide (k' = k)) as [->|Hne]; intros H.
  - apply list_elem_of_here.
  - apply list_elem_of_further. by apply IH.
Qed.

(** Assigning to a key already present keeps the keys and their order. *)
Lemma keys_dict_set_in (k v : string) (d : dict) :
  k ∈ keys d → keys (dict_set k v d) = keys d.
Proof.
  unfold keys. induction d as [|[k' v'] d IH]; cbn.
  - by intros ?%elem_of_nil.
  - intros Hin. destruct (decide (k' = k)) as [->|Hne]; cbn; [done|].
    f_equal. apply IH. apply elem_of_cons in Hin as [->|Hin]; done.
Qed.

(** Assigning to a new key puts it last. *)
Lemma keys_dict_set_notin (k v : string) (d : dict) :
  k ∉ keys d → keys (dict_set k v d) = keys d ++ [k].
Proof.
  unfold keys. induction d as [|[k' v'] d IH]; cbn; [done|].
  intros [Hne Hnin]%not_elem_of_cons.
  rewrite decide_False by done. cbn. f_equal. by apply IH.
Qed.

Lemma wf_dict_set (k v : string) (d : dict) :
  wf_dict d → wf_dict (dict_set k v d).
Proof.
  unfold wf_dict. intros Hwf.
  destruct (decide (k ∈ keys d)) as [Hin|Hnin].
  - by rewrite keys_dict_set_in.
  - rewrite keys_dict_set_notin by done.
    apply NoDup_app. split; [done|]. split; [|apply NoDup_singleton].
    intros x Hx ->%list_elem_of_singleton. done.
Qed.

(** A second assignment to the same key leaves no trace of the first. *)
Lemma dict_set_set (k v1 v2 : string) (d : dict) :
  dict_set k v2 (dict_set k v1 d) = dict_set k v2 d.
Proof.
  induction d as [|[k' v'] d IH]; cbn.
  - by rewrite decide_True.
  - destruct (decide (k' = k)) as [->|Hne]; cbn.
    + by rewrite decide_True.
    + rewrite decide_False by done. by rewrite IH.
Qed.

Lemma entries_notin (k : string) (d : dict) :
  k ∉ keys d → entries k d = 0%nat.
Proof.
  unfold entries, keys. induction d as [|[k' v'] d IH]; [done|].
  rewrite fmap_cons. intros [Hne Hnin]%not_elem_of_cons.
  cbn in Hne. rewrite filter_cons_False by (cbn; congruence). by apply IH.
Qed.

Lemma entries_wf_in (k : string) (d : dict) :
  wf_dict d → k ∈ keys d → entries k d = 1%nat.
Proof.
  unfold wf_dict, entries, keys. induction d as [|[k' v'] d IH].
  - by intros _ ?%elem_of_nil.
  - rewrite fmap_cons. intros [Hnin Hwf]%NoDup_cons Hin.
    destruct (decide (k' = k)) as [->|Hne].
    + rewrite filter_cons_True by done. cbn [length]. f_equal.
      by apply (entries_notin k d).
    + rewrite filter_cons_False by done. apply IH; [done|].
      apply elem_of_cons in Hin as [->|Hin]; done.
Qed.

Lemma entries_dict_set (k v : string) (d : dict) :
  wf_dict d → entries k (dict_set k v d) = 1%nat.
Proof.
  intros Hwf. apply entries_wf_in; [by apply wf_dict_set|].
  eapply dict_get_Some_key, dict_get_set_eq.
Qed.

Lemma wf_dict_update (d items : dict) :
  wf_dict d → wf_dict (dict_update d items).
Proof.
  unfold dict_update. revert d.
  induction items as [|[k v] items IH]; intros d Hwf; cbn; [done|].
  by apply IH, wf_dict_set.
Qed.

(** After [d.update(items)] a key of [items] has the value given there, any
    other key the value it had. *)
Lemma dict_get_update (k : string) (d items : dict) :
  wf_dict items →
  dict_get k (dict_update d items)
  = match dict_get k items with
    | Some v => Some v
    | None => dict_get k d
    end.
Proof.
  unfold dict_update, wf_dict, keys. revert d.
  induction items as [|[k1 v1] items IH]; intros d Hwf; cbn; [done|].
  apply NoDup_cons in Hwf as [Hnin Hwf]. rewrite IH by done.
  destruct (decide (k1 = k)) as [->|Hne].
  - by rewrite (dict_get_None k items), dict_get_set_eq.
  - by rewrite dict_get_set_ne.
Qed.

Lemma wf_dict_merge (a b : dict) : wf_dict (dict_merge a b).
Proof. apply wf_dict_update, wf_dict_update, NoDup_nil_2. Qed.

(** In [{**a, **b}] the value of [b] wins, and the keys only [a] has keep
    their value. *)
Lemma overrides_merge (a b : dict) :
  wf_dict a → wf_dict b → overrides a b (dict_merge a b).
Proof.
  intros Ha Hb k. unfold dict_merge.
  rewrite (dict_get_update k _ b) by done.
  rewrite (dict_get_update k [] a) by done.
  cbn. by destruct (dict_get k a).
Qed.

Lemma dict_update_fresh (d items : dict) :
  wf_dict (d ++ items) → dict_update d items = d ++ items.
Proof.
  unfold dict_update, wf_dict, keys. revert d.
  induction items as [|[k v] items IH]; intros d Hwf; cbn.
  - by rewrite app_nil_r.
  - assert (dict_set k v d = d ++ [(k, v)]) as ->.
    { rewrite fmap_app in Hwf. apply NoDup_app in Hwf as (_ & Hdis & _).
      assert (k ∉ d.*1) as Hk by (intros Hk; apply (Hdis k Hk); left).
      clear -Hk. induction d as [|[k' v'] d IH]; [done|].
      cbn in *. apply not_elem_of_cons in Hk as [Hne Hk].
      rewrite decide_False by done. by rewrite IH. }
    rewrite IH; rewrite <- app_assoc; done.
Qed.

Lemma dict_display_wf (items : dict) : wf_dict items → dict_display items = items.
Proof. intros Hwf. by apply (dict_update_fresh []). Qed.

(** ** Running computations *)

Lemma bind_Ok {A B : Type} (m : M A) (k : A → M B) (w w' : world) (a : A) :
  m w = Ok a w' → (m ≫= k) w = k a w'.
Proof. unfold mbind, M_bind. by intros ->. Qed.

Lemma dict_items_Ok (r : ref) (w : world) (d : dict) :
  heap w !! r = Some d → dict_items r w = Ok d w.
Proof. unfold dict_items. by intros ->. Qed.

Lemma dict_setitem_Ok (r : ref) (k v : string) (w : world) (d : dict) :
  heap w !! r = Some d →
  dict_setitem r k v w = Ok () (set_heap (<[r := dict_set k v d]> (heap w)) w).
Proof. unfold dict_setitem. by intros ->. Qed.

Lemma heap_set_heap (h : list dict) (w : world) : heap (set_heap h w) = h.
Proof. reflexivity. Qed.

(** Reading back the object just assigned to. *)
Lemma lookup_setitem (r : ref) (d d' : dict) (h : list dict) :
  h !! r = Some d → <[r := d']> h !! r = Some d'.
Proof. intros H. apply list_lookup_insert_eq. by eapply lookup_lt_Some. Qed.

#[local] Ltac step :=
  first
    [ erewrite bind_Ok by (apply dict_setitem_Ok; eassumption)
    | erewrite bind_Ok by (apply dict_items_Ok; eassumption)
    | erewrite bind_Ok by reflexivity ].

(** ** What one call does *)

Lemma CPU_call_Ok (self : CPU.t) (lmp_script : string) (var : dict)
    (w : world) (d : dict) :
  heap w !! CPU.args self = Some d →
  CPU.call self lmp_script var w
  = Ok () {| heap := <[CPU.args self := dict_set "-in" lmp_script d]> (heap w);
             files := files w;
             shell := shell w ++ [Computer.run_lammps (CPU.num_procs self)
                                    (CPU.lmp_exec self)
                                    (dict_set "-in" lmp_script d) var] |}.
Proof.
  intros Hd. unfold CPU.call. step.
  erewrite bind_Ok
    by (apply dict_items_Ok; rewrite heap_set_heap; by eapply lookup_setitem).
  reflexivity.
Qed.

Lemma GPU_call_Ok (self : GPU.t) (lmp_script : string) (var : dict)
    (w : world) (d : dict) :
  heap w !! GPU.args self = Some d →
  GPU.call self lmp_script var w
  = Ok () {| heap := <[GPU.args self := dict_set "-in" lmp_script d]> (heap w);
             files := files w;
             shell := shell w ++ [Computer.run_lammps (GPU.gpu_per_node self)
                                    (GPU.lmp_exec self)
                                    (dict_set "-in" lmp_script d) var] |}.
Proof.
  intros Hd. unfold GPU.call. step.
  erewrite bind_Ok
    by (apply dict_items_Ok; rewrite heap_set_heap; by eapply lookup_setitem).
  reflexivity.
Qed.

Lemma SlurmCPU_gen_jobscript_Ok (self : SlurmCPU.t) (args : ref) (var : dict)
    (w : world) (sd d : dict) :
  heap w !! SlurmCPU.settings self = Some sd →
  heap w !! args = Some d →
  SlurmCPU.gen_jobscript self args var w
  = Ok () {| heap := heap w;
             files := <[SlurmCPU.jobscript self
                        := SlurmCPU.jobscript_text self sd d var]> (files w);
             shell := shell w |}.
Proof. intros Hsd Hd. unfold SlurmCPU.gen_jobscript. by do 2 step. Qed.

Lemma SlurmGPU_gen_jobscript_Ok (self : SlurmGPU.t) (args : ref) (var : dict)
    (w : world) (sd d : dict) :
  heap w !! SlurmGPU.settings self = Some sd →
  heap w !! args = Some d →
  SlurmGPU.gen_jobscript self args var w
  = Ok () {| heap := heap w;
             files := <[SlurmGPU.jobscript self
                        := SlurmGPU.jobscript_text self sd d var]> (files w);
             shell := shell w |}.
Proof. intros Hsd Hd. unfold SlurmGPU.gen_jobscript. by do 2 step. Qed.

(** A call of [SlurmCPU]: [sd] is what the settings object holds when the
    script is written. *)
Lemma SlurmCPU_call_Ok (self : SlurmCPU.t) (lmp_script : string) (var : dict)
    (w : world) (sd d : dict) :
  heap w !! SlurmCPU.args self = Some d →
  <[SlurmCPU.args self := dict_set "-in" lmp_script d]> (heap w)
    !! SlurmCPU.settings self = Some sd →
  SlurmCPU.call self lmp_script var w
  = Ok () {| heap := <[SlurmCPU.args self := dict_set "-in" lmp_script d]>
                       (heap w);
             files := if SlurmCPU.generate_jobscript self
                      then <[SlurmCPU.jobscript self
                             := SlurmCPU.jobscript_text self sd
                                  (dict_set "-in" lmp_script d) var]> (files w)
                      else files w;
             shell := shell w ++ ["sbatch " +:+ SlurmCPU.jobscript self] |}.
Proof.
  intros Hd Hsd. unfold SlurmCPU.call. step.
  destruct (SlurmCPU.generate_jobscript self).
  - erewrite bind_Ok; cycle 1.
    { apply SlurmCPU_gen_jobscript_Ok; rewrite heap_set_heap; [done|].
      by eapply lookup_setitem. }
    reflexivity.
  - by step.
Qed.

Lemma SlurmGPU_call_Ok (self : SlurmGPU.t) (lmp_script : string) (var : dict)
    (w : world) (sd d : dict) :
  heap w !! SlurmGPU.args self = Some d →
  <[SlurmGPU.args self := dict_set "-in" lmp_script d]> (heap w)
    !! SlurmGPU.settings self = Some sd →
  SlurmGPU.call self lmp_script var w
  = Ok () {| heap := <[SlurmGPU.args self := dict_set "-in" lmp_script d]>
                       (heap w);
             files := if SlurmGPU.generate_jobscript self
                      then <[SlurmGPU.jobscript self
                             := SlurmGPU.jobscript_text self sd
                                  (dict_set "-in" lmp_script d) var]> (files w)
                      else files w;
             shell := shell w ++ ["sbatch " +:+ SlurmGPU.jobscript self] |}.
Proof.
  intros Hd Hsd. unfold SlurmGPU.call. step.
  destruct (SlurmGPU.generate_jobscript self).
  - erewrite bind_Ok; cycle 1.
    { apply SlurmGPU_gen_jobscript_Ok; rewrite heap_set_heap; [done|].
      by eapply lookup_setitem. }
    reflexivity.
  - by step.
Qed.

Lemma SlurmCPU_jobscript_text_command (self : SlurmCPU.t) (sd d var : dict) :
  ∃ pre, SlurmCPU.jobscript_text self sd d var
         = pre +:+ command_line (OnSlurmCPU self) d var.
Proof. unfold SlurmCPU.jobscript_text, write. cbv zeta. by eexists. Qed.

Lemma SlurmGPU_jobscript_text_command (self : SlurmGPU.t) (sd d var : dict) :
  ∃ pre, SlurmGPU.jobscript_text self sd d var
         = pre +:+ command_line (OnSlurmGPU self) d var.
Proof. unfold SlurmGPU.jobscript_text, write. cbv zeta. by eexists. Qed.

Lemma target_ok_setitem (t : target) (w w' : world) (r : ref) (d : dict) :
  heap w' = <[r := d]> (heap w) → target_ok t w → target_ok t w'.
Proof.
  intros Hh. destruct t; cbn; try done; rewrite Hh;
    by rewrite list_lookup_insert_is_Some.
Qed.

(** One launch assigns the script to ["-in"] in the stored options, touches
    no other dictionary, and renders its command from the options so
    changed. *)
Lemma launch_Ok (t : target) (lmp_script : string) (var : dict) (w : world)
    (d : dict) :
  heap w !! target_args t = Some d →
  target_ok t w →
  ∃ w', launch t lmp_script var w = Ok () w'
        ∧ heap w' = <[target_args t := dict_set "-in" lmp_script d]> (heap w)
        ∧ rendered t w' (dict_set "-in" lmp_script d) var.
Proof.
  intros Hd Hok. destruct t as [self|self|self|self]; cbn in *.
  - eexists. split; [by apply CPU_call_Ok|]. split; [done|]. apply last_snoc.
  - eexists. split; [by apply GPU_call_Ok|]. split; [done|]. apply last_snoc.
  - apply (list_lookup_insert_is_Some _ (SlurmCPU.args self)
             (dict_set "-in" lmp_script d)) in Hok as [sd Hsd].
    eexists. split; [by eapply SlurmCPU_call_Ok|]. split; [done|].
    intros Hgen. cbn. rewrite Hgen.
    destruct (SlurmCPU_jobscript_text_command self sd
                (dict_set "-in" lmp_script d) var) as [pre Hpre].
    exists pre. rewrite lookup_insert_eq. by rewrite Hpre.
  - apply (list_lookup_insert_is_Some _ (SlurmGPU.args self)
             (dict_set "-in" lmp_script d)) in Hok as [sd Hsd].
    eexists. split; [by eapply SlurmGPU_call_Ok|]. split; [done|].
    intros Hgen. cbn. rewrite Hgen.
    destruct (SlurmGPU_jobscript_text_command self sd
                (dict_set "-in" lmp_script d) var) as [pre Hpre].
    exists pre. rewrite lookup_insert_eq. by rewrite Hpre.
Qed.

(** ** Construction *)

Lemma GPU_init_Ok (gpu_per_node : Z) (lmp_exec : string) (args : ref)
    (w : world) (a : dict) :
  heap w !! args = Some a →
  GPU.init gpu_per_node lmp_exec args w
  = Ok (GPU.Build gpu_per_node lmp_exec (length (heap w)))
       (set_heap (heap w ++ [dict_merge (GPU.default_args gpu_per_node) a]) w).
Proof. intros Ha. unfold GPU.init. step. by step. Qed.

Lemma SlurmCPU_init_Ok (num_nodes : Z) (lmp_exec : string)
    (settings args : ref) (procs_per_node : Z) (lmp_module : string)
    (generate_jobscript : bool) (jobscript : string) (w : world) (s : dict) :
  heap w !! settings = Some s →
  SlurmCPU.init num_nodes lmp_exec settings args procs_per_node lmp_module
    generate_jobscript jobscript w
  = Ok (SlurmCPU.Build num_nodes (num_nodes * procs_per_node) lmp_exec
          lmp_module generate_jobscript jobscript (length (heap w)) args)
       (set_heap
          (heap w ++ [dict_merge
                        (SlurmCPU.default_settings
                           (num_nodes * procs_per_node) num_nodes) s]) w).
Proof. intros Hs. unfold SlurmCPU.init. cbv zeta. step. by step. Qed.

Lemma SlurmGPU_init_Ok (gpu_per_node : Z) (lmp_exec : string)
    (settings args : ref) (generate_jobscript : bool) (jobscript : string)
    (w : world) (s a : dict) :
  heap w !! settings = Some s →
  heap w !! args = Some a →
  SlurmGPU.init gpu_per_node lmp_exec settings args generate_jobscript
    jobscript w
  = Ok (SlurmGPU.Build gpu_per_node lmp_exec generate_jobscript jobscript
          (length (heap w)) (S (length (heap w))))
       (set_heap
          (heap w ++ [dict_merge (SlurmGPU.default_args gpu_per_node) a;
                      dict_merge (SlurmGPU.default_settings gpu_per_node) s])
          w).
Proof.
  intros Hs Ha. unfold SlurmGPU.init. step. step.
  erewrite bind_Ok; cycle 1.
  { apply dict_items_Ok. cbn. rewrite lookup_app_l by (by eapply lookup_lt_Some).
    exact Hs. }
  erewrite bind_Ok by reflexivity.
  cbn. rewrite length_app, Nat.add_1_r, <- app_assoc. reflexivity.
Qed.

(** The default dictionaries of the classes have distinct keys. *)
Lemma wf_GPU_default_args (g : Z) : wf_dict (GPU.default_args g).
Proof. apply wf_dict_update, NoDup_nil_2. Qed.

Lemma wf_SlurmGPU_default_args (g : Z) : wf_dict (SlurmGPU.default_args g).
Proof. apply wf_dict_update, NoDup_nil_2. Qed.

Lemma wf_SlurmGPU_default_settings (g : Z) :
  wf_dict (SlurmGPU.default_settings g).
Proof. apply wf_dict_update, NoDup_nil_2. Qed.

Lemma wf_SlurmCPU_default_settings (p n : Z) :
  wf_dict (SlurmCPU.default_settings p n).
Proof. apply wf_dict_update, NoDup_nil_2. Qed.

(** Allocation at the end of the store gives a new object and keeps the
    others. *)
Lemma fresh_merge_alloc (w w' : world) (defaults caller : dict)
    (before after : list dict) :
  wf_dict defaults → wf_dict caller →
  heap w' = (heap w ++ before) ++ dict_merge defaults caller :: after →
  fresh_merge w w' (length (heap w) + length before) defaults caller.
Proof.
  intros Hd Hc Hh. split; [|split].
  - apply lookup_ge_None. lia.
  - exists (dict_merge defaults caller). split; [|split; [done|]].
    + rewrite Hh. rewrite <- length_app. by rewrite list_lookup_middle.
    + by apply overrides_merge.
  - intros r' [x Hx]. rewrite Hh, <- app_assoc.
    by rewrite lookup_app_l by (by eapply lookup_lt_Some).
Qed.

Lemma stored_value_launch (t : target) (lmp_script : string) (var : dict)
    (w : world) (d : dict) :
  heap w !! target_args t = Some d →
  target_ok t w →
  ∃ w', launch t lmp_script var w = Ok () w'
        ∧ (∀ r, r ≠ target_args t → heap w' !! r = heap w !! r)
        ∧ (∀ k, k ≠ "-in" →
             stored_value w' (target_args t) k
             = stored_value w (target_args t) k).
Proof.
  intros Hd Hok.
  destruct (launch_Ok t lmp_script var w d Hd Hok) as (w' & Hrun & Hh & _).
  exists w'. split; [done|]. split.
  - intros r Hr. rewrite Hh. by apply list_lookup_insert_ne.
  - intros k Hk. unfold stored_value.
    rewrite Hh, (lookup_setitem _ d) by done. rewrite Hd. cbn.
    by apply dict_get_set_ne.
Qed.

(** C4. The dictionaries [GPU], [SlurmGPU] and [SlurmCPU] store at
    construction are the built-in defaults overridden by the caller's
    dictionary: a key of both has the caller's value, a key of the defaults
    alone keeps its default value.  The merge is made once, into a new
    object: the caller's dictionary and all other objects are left as they
    were, and a later launch changes nothing in the stored settings and
    nothing but ["-in"] in the stored options. *)
Theorem caller_overrides_defaults (w : world) (args settings : ref)
    (a s : dict) :
  heap w !! args = Some a → wf_dict a →
  heap w !! settings = Some s → wf_dict s →
  (∀ gpu_per_node lmp_exec, ∃ self w',
     GPU.init gpu_per_node lmp_exec args w = Ok self w'
     ∧ fresh_merge w w' (GPU.args self) (GPU.default_args gpu_per_node) a
     ∧ ∀ lmp_script var, ∃ w'',
         GPU.call self lmp_script var w' = Ok () w''
         ∧ ∀ k, k ≠ "-in" →
             stored_value w'' (GPU.args self) k
             = stored_value w' (GPU.args self) k)
  ∧ (∀ gpu_per_node lmp_exec generate_jobscript jobscript, ∃ self w',
       SlurmGPU.init gpu_per_node lmp_exec settings args generate_jobscript
         jobscript w = Ok self w'
       ∧ fresh_merge w w' (SlurmGPU.args self)
           (SlurmGPU.default_args gpu_per_node) a
       ∧ fresh_merge w w' (SlurmGPU.settings self)
           (SlurmGPU.default_settings gpu_per_node) s
       ∧ ∀ lmp_script var, ∃ w'',
           SlurmGPU.call self lmp_script var w' = Ok () w''
           ∧ heap w'' !! SlurmGPU.settings self
             = heap w' !! SlurmGPU.settings self
           ∧ ∀ k, k ≠ "-in" →
               stored_value w'' (SlurmGPU.args self) k
               = stored_value w' (SlurmGPU.args self) k)
  ∧ (∀ num_nodes lmp_exec procs_per_node lmp_module generate_jobscript
       jobscript, ∃ self w',
       SlurmCPU.init num_nodes lmp_exec settings args procs_per_node
         lmp_module generate_jobscript jobscript w = Ok self w'
       ∧ fresh_merge w w' (SlurmCPU.settings self)
           (SlurmCPU.default_settings (num_nodes * procs_per_node) num_nodes) s
       ∧ ∀ lmp_script var, ∃ w'',
           SlurmCPU.call self lmp_script var w' = Ok () w''
           ∧ heap w'' !! SlurmCPU.settings self
             = heap w' !! SlurmCPU.settings self).
Proof.
  intros Ha Hwa Hs Hws. split; [|split].
  - intros g e. eexists _, _. split; [by apply GPU_init_Ok|].
    assert (fresh_merge w
              (set_heap (heap w ++ [dict_merge (GPU.default_args g) a]) w)
              (length (heap w)) (GPU.default_args g) a) as Hfresh.
    { rewrite <- (Nat.add_0_r (length (heap w))).
      apply (fresh_merge_alloc _ _ _ _ [] []);
        [apply wf_GPU_default_args|done|].
      by rewrite app_nil_r. }
    split; [exact Hfresh|]. intros lmp_script var.
    destruct Hfresh as (_ & (stored & Hst & _) & _).
    destruct (stored_value_launch
                (OnGPU (GPU.Build g e (length (heap w)))) lmp_script var _
                stored Hst I) as (w'' & Hrun & _ & Hk).
    by exists w''.
  - intros g e gen j. eexists _, _.
    split; [by eapply SlurmGPU_init_Ok|].
    set (w' := set_heap _ w).
    assert (fresh_merge w w' (length (heap w)) (SlurmGPU.default_args g) a)
      as Hfa.
    { rewrite <- (Nat.add_0_r (length (heap w))).
      eapply (fresh_merge_alloc _ _ _ _ [] [_]);
        [apply wf_SlurmGPU_default_args|done|].
      by rewrite app_nil_r. }
    assert (fresh_merge w w' (S (length (heap w)))
              (SlurmGPU.default_settings g) s) as Hfs.
    { rewrite <- Nat.add_1_r.
      eapply (fresh_merge_alloc _ _ _ _ [_] []);
        [apply wf_SlurmGPU_default_settings|done|].
      by rewrite <- app_assoc. }
    split; [exact Hfa|]. split; [exact Hfs|]. intros lmp_script var.
    destruct Hfa as (_ & (stored & Hst & _) & _).
    destruct Hfs as (_ & (sd & Hsd & _) & _).
    destruct (stored_value_launch
                (OnSlurmGPU (SlurmGPU.Build g e gen j (length (heap w))
                               (S (length (heap w)))))
                lmp_script var w' stored Hst) as (w'' & Hrun & Hfr & Hk).
    { exists sd. exact Hsd. }
    exists w''. split; [done|]. split; [|done].
    apply Hfr. cbn. lia.
  - intros n e p m gen j. eexists _, _.
    split; [by eapply SlurmCPU_init_Ok|].
    set (w' := set_heap _ w).
    assert (fresh_merge w w' (length (heap w))
              (SlurmCPU.default_settings (n * p) n) s) as Hfs.
    { rewrite <- (Nat.add_0_r (length (heap w))).
      apply (fresh_merge_alloc _ _ _ _ [] []);
        [apply wf_SlurmCPU_default_settings|done|].
      by rewrite app_nil_r. }
    split; [exact Hfs|]. intros lmp_script var.
    destruct Hfs as (_ & (sd & Hsd & _) & Hold).
    destruct (stored_value_launch
                (OnSlurmCPU (SlurmCPU.Build n (n * p) e m gen j
                               (length (heap w)) args))
                lmp_script var w' a) as (w'' & Hrun & Hfr & _).
    { cbn [target_args SlurmCPU.args]. by rewrite Hold. }
    { exists sd. exact Hsd. }
    exists w''. split; [done|]. apply Hfr. cbn.
    apply lookup_lt_Some in Ha. lia.
Qed.

(** ** Local CPU target *)

(** The scenario of the local CPU target: [CPU()] right after import,
    launched on [in.melt] with [T = 300]. *)
Lemma CPU_launch_in_melt :
  ∃ (self : CPU.t) (w1 w2 : world),
    CPU.new (Some 4) (Some "lmp_mpi") None initial_world = Ok self w1
    ∧ CPU.call self "in.melt" [("T", "300")] w1 = Ok () w2
    ∧ shell w2 = ["mpirun -n 4 lmp_mpi -in in.melt -var T 300 "].
Proof.
  eexists _, _, _. do 2 (split; [lazy; reflexivity|]). reflexivity.
Qed.

(** ** Local GPU target *)

(** C5. A [GPU] made with [gpu_per_node=2] and no options of the caller
    stores, after a launch with script [lmp_script], the options [-pk],
    [-k] with value [on g 2], [-sf] with value [kk] and [-in] with value
    [lmp_script]; the command given to the shell is [run_lammps] called with
    the device count 2 as process count, so it starts [mpirun -n 2]. *)
Theorem GPU_two_devices (w : world) (lmp_exec : option string)
    (lmp_script : string) (var : dict) :
  heap w !! GPU.args_default = Some [] →
  ∃ (self : GPU.t) (w1 w2 : world) (d : dict),
    GPU.new (Some 2) lmp_exec None w = Ok self w1
    ∧ GPU.call self lmp_script var w1 = Ok () w2
    ∧ heap w2 !! GPU.args self = Some d
    ∧ d = [("-pk", "kokkos newton on comm no"); ("-k", "on g 2");
           ("-sf", "kk"); ("-in", lmp_script)]
    ∧ is_Some (dict_get "-pk" d)
    ∧ dict_get "-k" d = Some "on g 2"
    ∧ dict_get "-sf" d = Some "kk"
    ∧ dict_get "-in" d = Some lmp_script
    ∧ last (shell w2)
      = Some (Computer.run_lammps (GPU.gpu_per_node self) (GPU.lmp_exec self)
                d var)
    ∧ GPU.gpu_per_node self = 2
    ∧ ∃ rest, Computer.run_lammps (GPU.gpu_per_node self) (GPU.lmp_exec self)
                d var
              = "mpirun -n 2 " +:+ rest.
Proof.
  intros Hdef. unfold GPU.new. cbn [default].
  set (e := default GPU.default_lmp_exec lmp_exec).
  pose proof (GPU_init_Ok 2 e GPU.args_default w [] Hdef) as Hinit.
  set (w1 := set_heap _ w) in Hinit.
  assert (heap w1 !! length (heap w)
          = Some [("-pk", "kokkos newton on comm no"); ("-k", "on g 2");
                  ("-sf", "kk")]) as Hargs.
  { subst w1. rewrite heap_set_heap. by rewrite list_lookup_middle. }
  pose proof (GPU_call_Ok (GPU.Build 2 e (length (heap w))) lmp_script var
                w1 _ Hargs) as Hcall.
  eexists _, w1, _, _. split; [exact Hinit|]. split; [exact Hcall|].
  split; [by eapply lookup_setitem|]. split; [reflexivity|].
  split; [by eexists|]. do 3 (split; [reflexivity|]).
  split; [apply last_snoc|]. split; [reflexivity|].
  rewrite run_lammps_join. eexists.
  rewrite !append_assoc. reflexivity.
Qed.

(** ** Lines of a text *)

Lemma split_lines_nonempty (s : string) : split_lines s ≠ [].
Proof.
  destruct s as [|c s]; [done|]. cbn.
  destruct (decide (c = "010"%char)); [done|].
  by destruct (split_lines s).
Qed.

Lemma single_line_app (a b : string) :
  single_line (a +:+ b) = single_line a && single_line b.
Proof.
  induction a as [|c a IH]; [done|].
  rewrite append_cons. cbn. by destruct (decide (c = "010"%char)).
Qed.

Lemma split_lines_single (s : string) :
  single_line s = true → split_lines s = [s].
Proof.
  induction s as [|c s IH]; [done|]. cbn.
  destruct (decide (c = "010"%char)); [done|].
  intros Hs. by rewrite IH.
Qed.

(** A line break splits the text into the lines before and after it. *)
Lemma split_lines_nl (a b : string) :
  split_lines (a +:+ nl +:+ b) = split_lines a ++ split_lines b.
Proof.
  induction a as [|c a IH]; [done|].
  rewrite append_cons. cbn [split_lines].
  destruct (decide (c = "010"%char)).
  - by rewrite IH.
  - rewrite IH. pose proof (split_lines_nonempty a).
    by destruct (split_lines a).
Qed.

Lemma split_lines_join (ls : list string) (c : string) :
  Forall (λ l, single_line l = true) ls →
  single_line c = true →
  split_lines (join ((λ l, l +:+ nl) <$> ls) +:+ c) = ls ++ [c].
Proof.
  intros Hls Hc. induction Hls as [|l ls Hl _ IH].
  - by apply split_lines_single.
  - rewrite fmap_cons, join_cons, !append_assoc, split_lines_nl, IH.
    by rewrite (split_lines_single l).
Qed.

Lemma last_line_join (ls : list string) (c : string) :
  Forall (λ l, single_line l = true) ls →
  single_line c = true →
  last_line (join ((λ l, l +:+ nl) <$> ls) +:+ c) = Some c.
Proof.
  intros Hls Hc. unfold last_line.
  rewrite split_lines_join by done. apply last_snoc.
Qed.

(** The last line of a text that ends in a single-line [c] after a line
    break is [c], whatever comes before. *)
Lemma last_line_after_nl (pre c : string) :
  single_line c = true → last_line (pre +:+ nl +:+ c) = Some c.
Proof.
  intros Hc. unfold last_line.
  rewrite split_lines_nl, (split_lines_single c) by done. apply last_snoc.
Qed.

(** ** The text of the job scripts *)

Lemma join_directive_lines (settings : dict) :
  join ((λ kv, "#SBATCH --" +:+ kv.1 +:+ "=" +:+ kv.2 +:+ nl +:+ "#" +:+ nl)
          <$> settings)
  = join ((λ l, l +:+ nl) <$> flat_map directive_lines settings).
Proof.
  induction settings as [|[k v] settings IH]; [done|].
  cbn [flat_map directive_lines fmap list_fmap app fst snd].
  rewrite !join_cons, <- IH. by rewrite !append_assoc.
Qed.

Lemma SlurmCPU_jobscript_text_join (self : SlurmCPU.t) (settings args var : dict) :
  SlurmCPU.jobscript_text self settings args var
  = join ((λ l, l +:+ nl)
            <$> (["#!/bin/bash"; ""]
                   ++ flat_map directive_lines settings
                   ++ ["## Set up job environment:";
                       "source /cluster/bin/jobsetup";
                       "module purge";
                       "set -o errexit";
                       "";
                       "module load " +:+ SlurmCPU.lmp_module self;
                       ""]))
      +:+ Computer.run_lammps (SlurmCPU.num_procs self)
            (SlurmCPU.lmp_exec self) args var.
Proof.
  unfold SlurmCPU.jobscript_text, write. cbv zeta.
  rewrite (fold_left_append _
             (λ kv, "#SBATCH --" +:+ kv.1 +:+ "=" +:+ kv.2 +:+ nl
                      +:+ "#" +:+ nl)) by (by intros ? []).
  rewrite join_directive_lines, !fmap_app, !join_app.
  cbn [fmap list_fmap]. rewrite !join_cons. cbn [join foldr].
  by rewrite !append_empty_r, !append_assoc.
Qed.

Lemma SlurmGPU_jobscript_text_join (self : SlurmGPU.t) (settings args var : dict) :
  SlurmGPU.jobscript_text self settings args var
  = join ((λ l, l +:+ nl)
            <$> (["#!/bin/bash"; ""]
                   ++ flat_map directive_lines settings
                   ++ ["echo $CUDA_VISIBLE_DEVICES"]))
      +:+ Computer.run_lammps (SlurmGPU.gpu_per_node self)
            (SlurmGPU.lmp_exec self) args var.
Proof.
  unfold SlurmGPU.jobscript_text, write. cbv zeta.
  rewrite (fold_left_append _
             (λ kv, "#SBATCH --" +:+ kv.1 +:+ "=" +:+ kv.2 +:+ nl
                      +:+ "#" +:+ nl)) by (by intros ? []).
  rewrite join_directive_lines, !fmap_app, !join_app.
  cbn [fmap list_fmap]. rewrite !join_cons. cbn [join foldr].
  by rewrite !append_empty_r, !append_assoc.
Qed.

Lemma single_line_directive_lines (settings : dict) :
  single_line_items settings →
  Forall (λ l, single_line l = true) (flat_map directive_lines settings).
Proof.
  induction 1 as [|[k v] settings [Hk Hv] _ IH]; [done|].
  cbn [flat_map directive_lines app fst snd] in *.
  constructor; [|constructor; [done|exact IH]].
  rewrite !single_line_app, Hk, Hv. reflexivity.
Qed.

Lemma directive_lines_no_module (settings : dict) :
  Forall (λ l, module_or_errexit_line l = false)
    (flat_map directive_lines settings).
Proof.
  induction settings as [|[k v] settings IH]; [done|].
  cbn [flat_map directive_lines app]. by repeat constructor.
Qed.

Lemma run_lammps_no_module (num_procs : Z) (lmp_exec : string)
    (args var : dict) :
  module_or_errexit_line (Computer.run_lammps num_procs lmp_exec args var)
  = false.
Proof.
  rewrite run_lammps_join. unfold module_or_errexit_line.
  rewrite !append_assoc.
  rewrite !bool_decide_eq_false_2; [reflexivity|..]; intros H; discriminate H.
Qed.

(** ** Cluster CPU target *)

(** The command of a [SlurmCPU] script starts a line of its own. *)
Lemma SlurmCPU_jobscript_text_nl (self : SlurmCPU.t) (settings args var : dict) :
  ∃ pre, SlurmCPU.jobscript_text self settings args var
         = pre +:+ nl +:+ Computer.run_lammps (SlurmCPU.num_procs self)
                            (SlurmCPU.lmp_exec self) args var.
Proof.
  exists (join ((λ l, l +:+ nl)
                  <$> (["#!/bin/bash"; ""]
                         ++ flat_map directive_lines settings
                         ++ ["## Set up job environment:";
                             "source /cluster/bin/jobsetup";
                             "module purge";
                             "set -o errexit";
                             "";
                             "module load " +:+ SlurmCPU.lmp_module self]))).
  rewrite SlurmCPU_jobscript_text_join, !fmap_app, !join_app.
  cbn [fmap list_fmap]. rewrite !join_cons. cbn [join foldr].
  by rewrite !append_empty_r, !append_assoc.
Qed.

(** C6, as amended.  A [SlurmCPU] made with [num_nodes=2],
    [procs_per_node=16] and no settings of the caller has 32 processes and
    stores the settings [ntasks = 32] and [nodes = 2].  The job script a
    launch writes ends, after a line break, with the command [run_lammps]
    builds for 32 processes from the stored options; when that command holds
    no line break it is the last line of the script. *)
Theorem SlurmCPU_two_nodes (w : world) (lmp_exec lmp_module : option string)
    (jobscript : option string) (args : ref) (d : dict)
    (lmp_script : string) (var : dict) :
  heap w !! SlurmCPU.settings_default = Some [] →
  heap w !! args = Some d →
  ∃ (self : SlurmCPU.t) (w1 : world) (sd : dict),
    SlurmCPU.new 2 lmp_exec None (Some args) (Some 16) lmp_module (Some true)
      jobscript w = Ok self w1
    ∧ SlurmCPU.num_procs self = 32
    ∧ heap w1 !! SlurmCPU.settings self = Some sd
    ∧ dict_get "ntasks" sd = Some "32"
    ∧ dict_get "nodes" sd = Some "2"
    ∧ ∃ (w2 : world) (d' : dict) (text : string),
        SlurmCPU.call self lmp_script var w1 = Ok () w2
        ∧ heap w2 !! SlurmCPU.args self = Some d'
        ∧ d' = dict_set "-in" lmp_script d
        ∧ files w2 !! SlurmCPU.jobscript self = Some text
        ∧ (∃ pre, text = pre +:+ nl
                         +:+ Computer.run_lammps 32 (SlurmCPU.lmp_exec self)
                               d' var)
        ∧ (single_line (Computer.run_lammps 32 (SlurmCPU.lmp_exec self) d' var)
           = true →
           last_line text
           = Some (Computer.run_lammps 32 (SlurmCPU.lmp_exec self) d' var)).
Proof.
  intros Hdef Hd. unfold SlurmCPU.new. cbn [default].
  set (e := default SlurmCPU.default_lmp_exec lmp_exec).
  set (m := default SlurmCPU.default_lmp_module lmp_module).
  set (j := default SlurmCPU.default_jobscript jobscript).
  pose proof (SlurmCPU_init_Ok 2 e SlurmCPU.settings_default args 16 m true j
                w [] Hdef) as Hinit.
  set (w1 := set_heap _ w) in Hinit.
  set (self := SlurmCPU.Build _ _ _ _ _ _ _ _) in Hinit.
  set (sd := dict_merge (SlurmCPU.default_settings (2 * 16) 2) []) in w1.
  assert (heap w1 !! SlurmCPU.settings self = Some sd) as Hsd.
  { subst w1 self. cbn [SlurmCPU.settings]. rewrite heap_set_heap.
    by rewrite list_lookup_middle. }
  assert (heap w1 !! SlurmCPU.args self = Some d) as Hd1.
  { subst w1 self. cbn [SlurmCPU.args]. rewrite heap_set_heap.
    by rewrite lookup_app_l by (by eapply lookup_lt_Some). }
  assert (SlurmCPU.args self ≠ SlurmCPU.settings self) as Hne.
  { subst self. cbn. apply lookup_lt_Some in Hd. lia. }
  exists self, w1, sd. split; [exact Hinit|]. split; [reflexivity|].
  split; [exact Hsd|]. do 2 (split; [reflexivity|]).
  eexists _, (dict_set "-in" lmp_script d),
    (SlurmCPU.jobscript_text self sd (dict_set "-in" lmp_script d) var).
  split.
  { apply SlurmCPU_call_Ok; [exact Hd1|].
    rewrite list_lookup_insert_ne by done. exact Hsd. }
  split; [by eapply lookup_setitem|]. split; [reflexivity|].
  split; [apply lookup_insert_eq|].
  destruct (SlurmCPU_jobscript_text_nl self sd (dict_set "-in" lmp_script d)
              var) as [pre Hpre].
  rewrite Hpre. split; [by exists pre|].
  intros Hc. by apply last_line_after_nl.
Qed.

(** ** Launches in general *)

Lemma open_w_Ok (can_open : string → bool) (path : string) (w : world) :
  can_open path = true → open_w can_open path w = Ok () w.
Proof. unfold open_w. by intros ->. Qed.

Lemma CPU_call_ref_Ok (self : CPU.t) (lmp_script : string) (var : ref)
    (w : world) (d v : dict) :
  heap w !! CPU.args self = Some d →
  <[CPU.args self := dict_set "-in" lmp_script d]> (heap w) !! var = Some v →
  CPU.call_ref self lmp_script var w
  = Ok () {| heap := <[CPU.args self := dict_set "-in" lmp_script d]> (heap w);
             files := files w;
             shell := shell w ++ [Computer.run_lammps (CPU.num_procs self)
                                    (CPU.lmp_exec self)
                                    (dict_set "-in" lmp_script d) v] |}.
Proof.
  intros Hd Hv. unfold CPU.call_ref. step.
  erewrite bind_Ok
    by (apply dict_items_Ok; rewrite heap_set_heap; by eapply lookup_setitem).
  erewrite bind_Ok by (apply dict_items_Ok; rewrite heap_set_heap; exact Hv).
  reflexivity.
Qed.

Lemma GPU_call_ref_Ok (self : GPU.t) (lmp_script : string) (var : ref)
    (w : world) (d v : dict) :
  heap w !! GPU.args self = Some d →
  <[GPU.args self := dict_set "-in" lmp_script d]> (heap w) !! var = Some v →
  GPU.call_ref self lmp_script var w
  = Ok () {| heap := <[GPU.args self := dict_set "-in" lmp_script d]> (heap w);
             files := files w;
             shell := shell w ++ [Computer.run_lammps (GPU.gpu_per_node self)
                                    (GPU.lmp_exec self)
                                    (dict_set "-in" lmp_script d) v] |}.
Proof.
  intros Hd Hv. unfold GPU.call_ref. step.
  erewrite bind_Ok
    by (apply dict_items_Ok; rewrite heap_set_heap; by eapply lookup_setitem).
  erewrite bind_Ok by (apply dict_items_Ok; rewrite heap_set_heap; exact Hv).
  reflexivity.
Qed.

Lemma SlurmCPU_gen_jobscript_ref_Ok (can_open : string → bool)
    (self : SlurmCPU.t) (args var : ref) (w : world) (sd d v : dict) :
  can_open (SlurmCPU.jobscript self) = true →
  heap w !! SlurmCPU.settings self = Some sd →
  heap w !! args = Some d →
  heap w !! var = Some v →
  SlurmCPU.gen_jobscript_ref can_open self args var w
  = Ok () {| heap := heap w;
             files := <[SlurmCPU.jobscript self
                        := SlurmCPU.jobscript_text self sd d v]> (files w);
             shell := shell w |}.
Proof.
  intros Hopen Hsd Hd Hv. unfold SlurmCPU.gen_jobscript_ref.
  erewrite bind_Ok by (by apply open_w_Ok). by do 3 step.
Qed.

Lemma SlurmGPU_gen_jobscript_ref_Ok (can_open : string → bool)
    (self : SlurmGPU.t) (args var : ref) (w : world) (sd d v : dict) :
  can_open (SlurmGPU.jobscript self) = true →
  heap w !! SlurmGPU.settings self = Some sd →
  heap w !! args = Some d →
  heap w !! var = Some v →
  SlurmGPU.gen_jobscript_ref can_open self args var w
  = Ok () {| heap := heap w;
             files := <[SlurmGPU.jobscript self
                        := SlurmGPU.jobscript_text self sd d v]> (files w);
             shell := shell w |}.
Proof.
  intros Hopen Hsd Hd Hv. unfold SlurmGPU.gen_jobscript_ref.
  erewrite bind_Ok by (by apply open_w_Ok). by do 3 step.
Qed.

(** A call of [SlurmCPU] that returns: [sd] and [v] are what the settings
    and the variables hold once ["-in"] is assigned. *)
Lemma SlurmCPU_call_ref_Ok (can_open : string → bool) (self : SlurmCPU.t)
    (lmp_script : string) (var : ref) (w : world) (sd d v : dict) :
  heap w !! SlurmCPU.args self = Some d →
  <[SlurmCPU.args self := dict_set "-in" lmp_script d]> (heap w)
    !! SlurmCPU.settings self = Some sd →
  <[SlurmCPU.args self := dict_set "-in" lmp_script d]> (heap w) !! var
    = Some v →
  (SlurmCPU.generate_jobscript self = true →
   can_open (SlurmCPU.jobscript self) = true) →
  SlurmCPU.call_ref can_open self lmp_script var w
  = Ok () {| heap := <[SlurmCPU.args self := dict_set "-in" lmp_script d]>
                       (heap w);
             files := if SlurmCPU.generate_jobscript self
                      then <[SlurmCPU.jobscript self
                             := SlurmCPU.jobscript_text self sd
                                  (dict_set "-in" lmp_script d) v]> (files w)
                      else files w;
             shell := shell w ++ ["sbatch " +:+ SlurmCPU.jobscript self] |}.
Proof.
  intros Hd Hsd Hv Hopen. unfold SlurmCPU.call_ref. step.
  destruct (SlurmCPU.generate_jobscript self).
  - erewrite bind_Ok; cycle 1.
    { apply SlurmCPU_gen_jobscript_ref_Ok; rewrite ?heap_set_heap;
        [by apply Hopen|done| |done]. by eapply lookup_setitem. }
    reflexivity.
  - by step.
Qed.

Lemma SlurmGPU_call_ref_Ok (can_open : string → bool) (self : SlurmGPU.t)
    (lmp_script : string) (var : ref) (w : world) (sd d v : dict) :
  heap w !! SlurmGPU.args self = Some d →
  <[SlurmGPU.args self := dict_set "-in" lmp_script d]> (heap w)
    !! SlurmGPU.settings self = Some sd →
  <[SlurmGPU.args self := dict_set "-in" lmp_script d]> (heap w) !! var
    = Some v →
  (SlurmGPU.generate_jobscript self = true →
   can_open (SlurmGPU.jobscript self) = true) →
  SlurmGPU.call_ref can_open self lmp_script var w
  = Ok () {| heap := <[SlurmGPU.args self := dict_set "-in" lmp_script d]>
                       (heap w);
             files := if SlurmGPU.generate_jobscript self
                      then <[SlurmGPU.jobscript self
                             := SlurmGPU.jobscript_text self sd
                                  (dict_set "-in" lmp_script d) v]> (files w)
                      else files w;
             shell := shell w ++ ["sbatch " +:+ SlurmGPU.jobscript self] |}.
Proof.
  intros Hd Hsd Hv Hopen. unfold SlurmGPU.call_ref. step.
  destruct (SlurmGPU.generate_jobscript self).
  - erewrite bind_Ok; cycle 1.
    { apply SlurmGPU_gen_jobscript_ref_Ok; rewrite ?heap_set_heap;
        [by apply Hopen|done| |done]. by eapply lookup_setitem. }
    reflexivity.
  - by step.
Qed.

(** When the path cannot be opened the call stops at [open]: ["-in"] is
    assigned, nothing is written, nothing is submitted. *)
Lemma SlurmCPU_call_ref_OSError (can_open : string → bool) (self : SlurmCPU.t)
    (lmp_script : string) (var : ref) (w : world) (d : dict) :
  heap w !! SlurmCPU.args self = Some d →
  SlurmCPU.generate_jobscript self = true →
  can_open (SlurmCPU.jobscript self) = false →
  SlurmCPU.call_ref can_open self lmp_script var w
  = Raise (OSError (SlurmCPU.jobscript self))
      {| heap := <[SlurmCPU.args self := dict_set "-in" lmp_script d]> (heap w);
         files := files w; shell := shell w |}.
Proof.
  intros Hd Hgen Hopen. unfold SlurmCPU.call_ref. step. rewrite Hgen.
  unfold SlurmCPU.gen_jobscript_ref, mbind, M_bind, open_w.
  by rewrite Hopen.
Qed.

Lemma SlurmGPU_call_ref_OSError (can_open : string → bool) (self : SlurmGPU.t)
    (lmp_script : string) (var : ref) (w : world) (d : dict) :
  heap w !! SlurmGPU.args self = Some d →
  SlurmGPU.generate_jobscript self = true →
  can_open (SlurmGPU.jobscript self) = false →
  SlurmGPU.call_ref can_open self lmp_script var w
  = Raise (OSError (SlurmGPU.jobscript self))
      {| heap := <[SlurmGPU.args self := dict_set "-in" lmp_script d]> (heap w);
         files := files w; shell := shell w |}.
Proof.
  intros Hd Hgen Hopen. unfold SlurmGPU.call_ref. step. rewrite Hgen.
  unfold SlurmGPU.gen_jobscript_ref, mbind, M_bind, open_w.
  by rewrite Hopen.
Qed.

(** The calls with [var] by value are the general calls when [var] is an
    object other than the stored options and the script can be written. *)
Lemma launch_ref_launch (can_open : string → bool) (t : target)
    (lmp_script : string) (var : ref) (w : world) (v : dict) :
  heap w !! var = Some v →
  var ≠ target_args t →
  is_Some (heap w !! target_args t) →
  target_ok t w →
  can_write can_open t →
  launch_ref can_open t lmp_script var w = launch t lmp_script v w.
Proof.
  intros Hv Hne [d Hd] Hok Hopen.
  assert (<[target_args t := dict_set "-in" lmp_script d]> (heap w) !! var
          = Some v) as Hv' by (by rewrite list_lookup_insert_ne).
  destruct t as [self|self|self|self]; cbn [launch launch_ref target_args] in *.
  - by rewrite (CPU_call_ref_Ok _ _ _ _ d v), (CPU_call_Ok _ _ _ _ d).
  - by rewrite (GPU_call_ref_Ok _ _ _ _ d v), (GPU_call_Ok _ _ _ _ d).
  - apply (list_lookup_insert_is_Some _ (SlurmCPU.args self)
             (dict_set "-in" lmp_script d)) in Hok as [sd Hsd].
    rewrite (SlurmCPU_call_ref_Ok can_open _ _ _ _ sd d v),
      (SlurmCPU_call_Ok _ _ _ _ sd d); try done.
    intros Hgen. apply Hopen. cbn. by rewrite Hgen.
  - apply (list_lookup_insert_is_Some _ (SlurmGPU.args self)
             (dict_set "-in" lmp_script d)) in Hok as [sd Hsd].
    rewrite (SlurmGPU_call_ref_Ok can_open _ _ _ _ sd d v),
      (SlurmGPU_call_Ok _ _ _ _ sd d); try done.
    intros Hgen. apply Hopen. cbn. by rewrite Hgen.
Qed.

(** The command of a [SlurmGPU] script starts a line of its own. *)
Lemma SlurmGPU_jobscript_text_nl (self : SlurmGPU.t) (settings args var : dict) :
  ∃ pre, SlurmGPU.jobscript_text self settings args var
         = pre +:+ nl +:+ Computer.run_lammps (SlurmGPU.gpu_per_node self)
                            (SlurmGPU.lmp_exec self) args var.
Proof.
  exists (join ((λ l, l +:+ nl)
                  <$> (["#!/bin/bash"; ""] ++ flat_map directive_lines settings))
            +:+ "echo $CUDA_VISIBLE_DEVICES").
  rewrite SlurmGPU_jobscript_text_join, !fmap_app, !join_app.
  cbn [fmap list_fmap]. rewrite !join_cons. cbn [join foldr].
  by rewrite !append_empty_r, !append_assoc.
Qed.

(** One launch, whatever object [var] is: ["-in"] is assigned in the stored
    options, no other dictionary changes, and the command is rendered from
    the options and the variables as they are after the assignment. *)
Lemma launch_ref_Ok (can_open : string → bool) (t : target)
    (lmp_script : string) (var : ref) (w : world) (d : dict) :
  heap w !! target_args t = Some d →
  is_Some (heap w !! var) →
  target_ok t w →
  can_write can_open t →
  ∃ (w' : world) (v : dict),
    launch_ref can_open t lmp_script var w = Ok () w'
    ∧ heap w' = <[target_args t := dict_set "-in" lmp_script d]> (heap w)
    ∧ heap w' !! var = Some v
    ∧ rendered_last t w w' (command_line t (dict_set "-in" lmp_script d) v).
Proof.
  intros Hd Hvar Hok Hopen.
  apply (list_lookup_insert_is_Some _ (target_args t)
           (dict_set "-in" lmp_script d)) in Hvar as [v Hv].
  destruct t as [self|self|self|self];
    cbn [launch_ref target_args target_ok] in *.
  - eexists _, v. split; [by apply CPU_call_ref_Ok|]. split; [done|].
    split; [done|]. apply last_snoc.
  - eexists _, v. split; [by apply GPU_call_ref_Ok|]. split; [done|].
    split; [done|]. apply last_snoc.
  - apply (list_lookup_insert_is_Some _ (SlurmCPU.args self)
             (dict_set "-in" lmp_script d)) in Hok as [sd Hsd].
    assert (SlurmCPU.generate_jobscript self = true →
            can_open (SlurmCPU.jobscript self) = true) as Hopen'.
    { intros Hgen. apply Hopen. cbn. by rewrite Hgen. }
    eexists _, v. split; [by eapply SlurmCPU_call_ref_Ok|].
    split; [done|]. split; [done|].
    unfold rendered_last. cbn [target_jobscript script_written shell files].
    split; [apply last_snoc|].
    destruct (SlurmCPU.generate_jobscript self); [|done].
    destruct (SlurmCPU_jobscript_text_nl self sd
                (dict_set "-in" lmp_script d) v) as [pre ->].
    exists pre. apply lookup_insert_eq.
  - apply (list_lookup_insert_is_Some _ (SlurmGPU.args self)
             (dict_set "-in" lmp_script d)) in Hok as [sd Hsd].
    assert (SlurmGPU.generate_jobscript self = true →
            can_open (SlurmGPU.jobscript self) = true) as Hopen'.
    { intros Hgen. apply Hopen. cbn. by rewrite Hgen. }
    eexists _, v. split; [by eapply SlurmGPU_call_ref_Ok|].
    split; [done|]. split; [done|].
    unfold rendered_last. cbn [target_jobscript script_written shell files].
    split; [apply last_snoc|].
    destruct (SlurmGPU.generate_jobscript self); [|done].
    destruct (SlurmGPU_jobscript_text_nl self sd
                (dict_set "-in" lmp_script d) v) as [pre ->].
    exists pre. apply lookup_insert_eq.
Qed.

(** A world reached by launches that wrote no script has the files of the
    world the launches started in. *)
Lemma rendered_last_trans (t : target) (w w1 w' : world) (c1 c : string) :
  rendered_last t w w1 c1 → rendered_last t w1 w' c → rendered_last t w w' c.
Proof.
  unfold rendered_last. destruct (target_jobscript t); [|done].
  intros [_ H1] [Hs H]. split; [done|].
  destruct (script_written t); [done|]. congruence.
Qed.

(** In a dictionary with distinct keys the entry assigned to is the only one
    of its key. *)
Lemma dict_set_split (k v : string) (d : dict) :
  wf_dict d →
  ∃ before after,
    dict_set k v d = before ++ [(k, v)] ++ after
    ∧ (k ∉ keys before) ∧ (k ∉ keys after).
Proof.
  unfold wf_dict, keys. induction d as [|[k' v'] d IH]; intros Hwf.
  - exists [], []. split; [done|]. split; apply not_elem_of_nil.
  - rewrite fmap_cons in Hwf. apply NoDup_cons in Hwf as [Hnin Hwf].
    cbn [dict_set]. destruct (decide (k' = k)) as [->|Hne].
    + exists [], d. split; [done|]. split; [apply not_elem_of_nil|done].
    + destruct (IH Hwf) as (before & after & -> & Hb & Ha).
      exists ((k', v') :: before), after. split; [done|]. split; [|done].
      rewrite fmap_cons. apply not_elem_of_cons. split; [|done].
      cbn. by intros ->.
Qed.

(** The command of a target, piece by piece, around one of its options. *)
Lemma command_line_split (t : target) (before after var : dict)
    (k v : string) :
  command_line t (before ++ [(k, v)] ++ after) var
  = command_head t
      +:+ join (option_segment <$> before)
      +:+ (k +:+ " " +:+ v +:+ " ")
      +:+ join (option_segment <$> after)
      +:+ join (variable_segment <$> var).
Proof.
  destruct t as [self|self|self|self]; cbn [command_line command_head];
    rewrite run_lammps_join, !fmap_app, !join_app;
    cbn [fmap list_fmap]; rewrite join_cons; cbn [join foldr];
    unfold option_segment at 2; cbn [fst snd];
    by rewrite !append_empty_r, !append_assoc.
Qed.

(** ** Repeated launches *)

(** C3. After any number of launches on one target, the last with script
    [lmp_script], the stored options are the options the target started
    with, with ["-in"] assigned the last script: every call overwrites the
    entry, and the earlier scripts leave no trace.  The options hold
    exactly one entry ["-in"].  The command the last launch rendered is the
    head of the command, one piece per option before ["-in"], the one piece
    [-in <lmp_script>], one piece per option after it, then the variables:
    no other piece comes from an entry ["-in"] of the options.  The local
    classes gave this command to the shell; the Slurm classes wrote it as
    the end of the job script, and wrote no file and rendered no command
    when they do not generate the script. *)
Theorem launches_render_one_script (can_open : string → bool) (t : target)
    (runs : list (string * ref)) (lmp_script : string) (var : ref)
    (w : world) (d : dict) :
  heap w !! target_args t = Some d →
  wf_dict d →
  target_ok t w →
  Forall (λ run, is_Some (heap w !! run.2)) (runs ++ [(lmp_script, var)]) →
  can_write can_open t →
  ∃ (w' : world) (d' v before after : dict),
    launches_ref can_open t (runs ++ [(lmp_script, var)]) w = Ok () w'
    ∧ heap w' !! target_args t = Some d'
    ∧ d' = dict_set "-in" lmp_script d
    ∧ entries "-in" d' = 1%nat
    ∧ dict_get "-in" d' = Some lmp_script
    ∧ d' = before ++ [("-in", lmp_script)] ++ after
    ∧ ("-in" ∉ keys before)
    ∧ ("-in" ∉ keys after)
    ∧ heap w' !! var = Some v
    ∧ rendered_last t w w'
        (command_head t
           +:+ join ((λ kv, kv.1 +:+ " " +:+ kv.2 +:+ " ") <$> before)
           +:+ ("-in " +:+ lmp_script +:+ " ")
           +:+ join ((λ kv, kv.1 +:+ " " +:+ kv.2 +:+ " ") <$> after)
           +:+ join ((λ kv, "-var " +:+ kv.1 +:+ " " +:+ kv.2 +:+ " ") <$> v))
    ∧ (∀ r, r ≠ target_args t → heap w' !! r = heap w !! r).
Proof.
  revert w d. induction runs as [|[s1 v1] runs IH]; intros w d Hd Hwf Hok Hvars Hopen.
  - cbn [app] in Hvars. apply Forall_cons in Hvars as [Hv0 _].
    cbn [snd] in Hv0.
    destruct (launch_ref_Ok can_open t lmp_script var w d Hd Hv0 Hok Hopen)
      as (w' & v & Hrun & Hh & Hv & Hr).
    destruct (dict_set_split "-in" lmp_script d Hwf)
      as (before & after & Hsplit & Hb & Ha).
    exists w', (dict_set "-in" lmp_script d), v, before, after.
    cbn [app launches_ref]. erewrite bind_Ok by exact Hrun.
    split; [done|]. split; [rewrite Hh; by eapply lookup_setitem|].
    split; [done|]. split; [by apply entries_dict_set|].
    split; [apply dict_get_set_eq|]. do 4 (split; [done|]). split.
    + rewrite Hsplit, command_line_split in Hr. exact Hr.
    + intros r Hr'. rewrite Hh. by apply list_lookup_insert_ne.
  - rewrite <- app_comm_cons in Hvars.
    apply Forall_cons in Hvars as [Hv1 Hvars]. cbn [snd] in Hv1.
    destruct (launch_ref_Ok can_open t s1 v1 w d Hd Hv1 Hok Hopen)
      as (w1 & v1' & Hrun & Hh & _ & Hr1).
    destruct (IH w1 (dict_set "-in" s1 d))
      as (w' & d' & v & before & after & Hrun' & Hd' & -> & He & Hg & Hsplit
          & Hb & Ha & Hv & Hr & Hfr).
    { rewrite Hh. by eapply lookup_setitem. }
    { by apply wf_dict_set. }
    { by eapply target_ok_setitem. }
    { eapply Forall_impl; [exact Hvars|]. intros run Hrun0.
      rewrite Hh. by rewrite list_lookup_insert_is_Some. }
    { done. }
    rewrite dict_set_set in Hd', He, Hg, Hsplit.
    exists w', (dict_set "-in" lmp_script d), v, before, after.
    rewrite <- app_comm_cons. cbn [launches_ref].
    erewrite bind_Ok by exact Hrun. do 9 (split; [done|]). split.
    + by eapply rendered_last_trans.
    + intros r Hr'. rewrite Hfr, Hh by done. by apply list_lookup_insert_ne.
Qed.

(** ** The lines of the job scripts *)

(** The lines of a text made of pieces that each end in a line break,
    followed by a rest: the lines of the pieces, then the lines of the
    rest. *)
Lemma split_lines_pieces (ls : list string) (rest : string) :
  split_lines (join ((λ l, l +:+ nl) <$> ls) +:+ rest)
  = flat_map split_lines ls ++ split_lines rest.
Proof.
  induction ls as [|l ls IH]; [done|].
  rewrite fmap_cons, join_cons, !append_assoc, split_lines_nl, IH.
  cbn [flat_map]. by rewrite app_assoc.
Qed.

Lemma flat_map_split_lines_single (ls : list string) :
  Forall (λ l, single_line l = true) ls → flat_map split_lines ls = ls.
Proof.
  induction 1 as [|l ls Hl _ IH]; [done|].
  cbn [flat_map]. by rewrite split_lines_single, IH.
Qed.

(** The first line of a text starts with every prefix of the text that
    holds no line break. *)
Lemma split_lines_prefix (a b : string) :
  single_line a = true →
  ∃ l ls, split_lines (a +:+ b) = (a +:+ l) :: ls.
Proof.
  induction a as [|c a IH]; intros Ha.
  - pose proof (split_lines_nonempty b).
    destruct (split_lines b) as [|l ls] eqn:Hb; [done|].
    exists l, ls. exact Hb.
  - cbn in Ha. rewrite append_cons. cbn [split_lines].
    destruct (decide (c = "010"%char)); [done|].
    destruct (IH Ha) as (l & ls & ->). by exists l, ls.
Qed.

Lemma prefix_append (a b : string) : String.prefix a (a +:+ b) = true.
Proof.
  induction a as [|c a IH]; [by destruct b|].
  rewrite append_cons. cbn [String.prefix].
  destruct (ascii_dec c c); [exact IH|done].
Qed.

(** ** Cluster GPU target *)

(** C7, as amended.  For every [SlurmGPU], settings, options and variables
    the job script holds the line echoing [CUDA_VISIBLE_DEVICES], and the
    command follows directly after it: the lines of the script are the
    shebang line, an empty line, the lines of the settings, the echo line,
    the lines of the command.  When no setting and no part of the command
    holds a line break, the command is one line, the last, and no line of
    the script loads or purges modules or sets the exit on error.  The
    script of [SlurmCPU] always has lines that do. *)
Theorem SlurmGPU_script_lines (can_open : string → bool) (self : SlurmGPU.t)
    (args var : ref) (w : world) (sd d v : dict) :
  let cmd := Computer.run_lammps (SlurmGPU.gpu_per_node self)
               (SlurmGPU.lmp_exec self) d v in
  can_open (SlurmGPU.jobscript self) = true →
  heap w !! SlurmGPU.settings self = Some sd →
  heap w !! args = Some d →
  heap w !! var = Some v →
  ∃ (w' : world) (text : string),
    SlurmGPU.gen_jobscript_ref can_open self args var w = Ok () w'
    ∧ files w' !! SlurmGPU.jobscript self = Some text
    ∧ split_lines text
      = (["#!/bin/bash"; ""]
           ++ flat_map split_lines (flat_map directive_lines sd))
          ++ ["echo $CUDA_VISIBLE_DEVICES"] ++ split_lines cmd
    ∧ (single_line_items sd → single_line cmd = true →
       split_lines text
       = (["#!/bin/bash"; ""] ++ flat_map directive_lines sd)
           ++ ["echo $CUDA_VISIBLE_DEVICES"; cmd]
       ∧ last_line text = Some cmd
       ∧ Forall (λ l, module_or_errexit_line l = false) (split_lines text))
    ∧ ∀ (cpu : SlurmCPU.t) (d' var' : dict),
        "module purge" ∈ split_lines (SlurmCPU.jobscript_text cpu sd d' var')
        ∧ "set -o errexit"
            ∈ split_lines (SlurmCPU.jobscript_text cpu sd d' var')
        ∧ ∃ l, l ∈ split_lines (SlurmCPU.jobscript_text cpu sd d' var')
               ∧ String.prefix "module load " l = true.
Proof.
  intros cmd Hopen Hsd Hd Hv.
  eexists _, (SlurmGPU.jobscript_text self sd d v).
  split; [by apply SlurmGPU_gen_jobscript_ref_Ok|].
  split; [apply lookup_insert_eq|].
  assert (split_lines (SlurmGPU.jobscript_text self sd d v)
          = (["#!/bin/bash"; ""]
               ++ flat_map split_lines (flat_map directive_lines sd))
              ++ ["echo $CUDA_VISIBLE_DEVICES"] ++ split_lines cmd) as Hlines.
  { rewrite SlurmGPU_jobscript_text_join, split_lines_pieces.
    rewrite !flat_map_app.
    rewrite (flat_map_split_lines_single ["#!/bin/bash"; ""])
      by (by repeat constructor).
    rewrite (flat_map_split_lines_single ["echo $CUDA_VISIBLE_DEVICES"])
      by (by repeat constructor).
    by rewrite <- !app_assoc. }
  split; [exact Hlines|]. split.
  - intros Hitems Hcmd. rewrite Hlines.
    rewrite (flat_map_split_lines_single (flat_map directive_lines sd))
      by (by apply single_line_directive_lines).
    rewrite (split_lines_single cmd) by done.
    split; [done|]. split.
    + unfold last_line. rewrite Hlines.
      rewrite (split_lines_single cmd) by done.
      rewrite app_assoc. apply last_snoc.
    + apply Forall_app. split; [apply Forall_app; split|].
      * by repeat constructor.
      * apply directive_lines_no_module.
      * constructor; [done|]. constructor; [|done].
        apply run_lammps_no_module.
  - intros cpu d' var'.
    rewrite SlurmCPU_jobscript_text_join, split_lines_pieces.
    rewrite !flat_map_app. cbn [flat_map].
    rewrite (split_lines_single "module purge") by reflexivity.
    rewrite (split_lines_single "set -o errexit") by reflexivity.
    destruct (split_lines_prefix "module load " (SlurmCPU.lmp_module cpu)
                eq_refl) as (l & ls & Hml).
    rewrite Hml. rewrite !elem_of_app, !elem_of_cons.
    split; [tauto|]. split; [tauto|].
    exists ("module load " +:+ l). split; [|apply prefix_append].
    rewrite !elem_of_app, !elem_of_cons. tauto.
Qed.

(** ** The script of the cluster CPU target *)

(** C8, as amended.  The job script of [SlurmCPU] is the concatenation, in
    order and with nothing else, of these pieces, each followed by one line
    break: [#!/bin/bash], an empty piece, for each setting its [#SBATCH]
    directive and then [#], the comment on the job environment, the three
    pieces that source the set-up hook, purge the modules and turn on the
    exit on error, an empty piece, the piece that loads the module, an empty
    piece; the command comes last, with no line break after it.  When no
    setting, nor the module name, nor the command holds a line break, these
    pieces are exactly the lines of the script.  Writing the script changes
    no dictionary and runs no command. *)
Theorem SlurmCPU_script_text (can_open : string → bool) (self : SlurmCPU.t)
    (args var : ref) (w : world) (sd d v : dict) :
  let cmd := Computer.run_lammps (SlurmCPU.num_procs self)
               (SlurmCPU.lmp_exec self) d v in
  let pieces :=
    ["#!/bin/bash"; ""]
      ++ flat_map (λ kv, ["#SBATCH --" +:+ kv.1 +:+ "=" +:+ kv.2; "#"]) sd
      ++ ["## Set up job environment:";
          "source /cluster/bin/jobsetup";
          "module purge";
          "set -o errexit";
          "";
          "module load " +:+ SlurmCPU.lmp_module self;
          ""] in
  can_open (SlurmCPU.jobscript self) = true →
  heap w !! SlurmCPU.settings self = Some sd →
  heap w !! args = Some d →
  heap w !! var = Some v →
  ∃ (w' : world) (text : string),
    SlurmCPU.gen_jobscript_ref can_open self args var w = Ok () w'
    ∧ heap w' = heap w
    ∧ shell w' = shell w
    ∧ files w' !! SlurmCPU.jobscript self = Some text
    ∧ text = join ((λ l, l +:+ nl) <$> pieces) +:+ cmd
    ∧ (single_line_items sd →
       single_line (SlurmCPU.lmp_module self) = true →
       single_line cmd = true →
       split_lines text = pieces ++ [cmd]).
Proof.
  intros cmd pieces Hopen Hsd Hd Hv.
  exists {| heap := heap w;
            files := <[SlurmCPU.jobscript self
                       := SlurmCPU.jobscript_text self sd d v]> (files w);
            shell := shell w |}, (SlurmCPU.jobscript_text self sd d v).
  split; [by apply SlurmCPU_gen_jobscript_ref_Ok|].
  do 2 (split; [reflexivity|]).
  split; [apply lookup_insert_eq|].
  assert (SlurmCPU.jobscript_text self sd d v
          = join ((λ l, l +:+ nl) <$> pieces) +:+ cmd) as Htext
    by apply SlurmCPU_jobscript_text_join.
  split; [exact Htext|].
  intros Hitems Hm Hcmd. rewrite Htext.
  apply split_lines_join; [|exact Hcmd].
  subst pieces. apply Forall_app. split; [|apply Forall_app; split].
  - by repeat constructor.
  - by apply single_line_directive_lines.
  - repeat constructor. by rewrite single_line_app, Hm.
Qed.

(** ** Default arguments *)

(** Every [CPU()] stores the one dictionary made for the default of
    [args]. *)
Lemma CPU_new_default_args (num_procs : option Z) (lmp_exec : option string)
    (w : world) :
  ∃ self, CPU.new num_procs lmp_exec None w = Ok self w
          ∧ CPU.args self = CPU.args_default.
Proof. by eexists. Qed.

(** C9 fails for [CPU]: two instances made without options store the same
    dictionary, so a launch on the first puts ["-in"] into the options of
    the second. *)
Theorem CPU_default_options_shared :
  ∃ (a b : CPU.t) (w1 w2 w3 : world),
    CPU.new None None None initial_world = Ok a w1
    ∧ CPU.new None None None w1 = Ok b w2
    ∧ heap w2 !! CPU.args b = Some []
    ∧ CPU.call a "in.melt" [] w2 = Ok () w3
    ∧ heap w3 !! CPU.args b = Some [("-in", "in.melt")]
    ∧ CPU.args a = CPU.args b.
Proof.
  eexists _, _, _, _, _. do 5 (split; [lazy; reflexivity|]). reflexivity.
Qed.

(** [SlurmCPU] shares its default options in the same way. *)
Lemma SlurmCPU_default_options_shared :
  ∃ (a b : SlurmCPU.t) (w1 w2 w3 : world),
    SlurmCPU.new 2 None None None None None None None initial_world = Ok a w1
    ∧ SlurmCPU.new 2 None None None None None None None w1 = Ok b w2
    ∧ heap w2 !! SlurmCPU.args b = Some []
    ∧ SlurmCPU.call a "in.melt" [] w2 = Ok () w3
    ∧ heap w3 !! SlurmCPU.args b = Some [("-in", "in.melt")].
Proof.
  eexists _, _, _, _, _. do 4 (split; [lazy; reflexivity|]). reflexivity.
Qed.

(** X10. [GPU] does what [CPU] misses: the merge at construction makes a
    new dictionary, so a launch on one instance leaves every other
    instance's options as they were, also when both were made from the same
    dictionary. *)
Lemma GPU_options_independent (w : world) (g1 g2 : Z) (e1 e2 : string)
    (r1 r2 : ref) (d1 d2 : dict) (lmp_script : string) (var : dict) :
  heap w !! r1 = Some d1 →
  heap w !! r2 = Some d2 →
  ∃ (a b : GPU.t) (w1 w2 w3 : world),
    GPU.init g1 e1 r1 w = Ok a w1
    ∧ GPU.init g2 e2 r2 w1 = Ok b w2
    ∧ GPU.call a lmp_script var w2 = Ok () w3
    ∧ GPU.args a ≠ GPU.args b
    ∧ heap w3 !! GPU.args b = heap w2 !! GPU.args b.
Proof.
  intros H1 H2.
  pose proof (GPU_init_Ok g1 e1 r1 w d1 H1) as Ha.
  set (w1 := set_heap _ w) in Ha.
  assert (heap w1 !! r2 = Some d2) as H2'.
  { subst w1. rewrite heap_set_heap.
    by rewrite lookup_app_l by (by eapply lookup_lt_Some). }
  pose proof (GPU_init_Ok g2 e2 r2 w1 d2 H2') as Hb.
  set (w2 := set_heap _ w1) in Hb.
  assert (heap w2 !! length (heap w)
          = Some (dict_merge (GPU.default_args g1) d1)) as Hargs.
  { subst w2 w1. rewrite !heap_set_heap, <- app_assoc. cbn [app].
    by rewrite list_lookup_middle. }
  pose proof (GPU_call_Ok (GPU.Build g1 e1 (length (heap w))) lmp_script var
                w2 _ Hargs) as Hcall.
  eexists _, _, w1, w2, _. split; [exact Ha|]. split; [exact Hb|].
  split; [exact Hcall|].
  assert (length (heap w) ≠ length (heap w1)) as Hne.
  { subst w1. rewrite heap_set_heap, length_app. cbn. lia. }
  split; [exact Hne|]. cbn [heap GPU.args].
  by rewrite list_lookup_insert_ne.
Qed.

(** ** The abstract class *)

#[local] Ltac never_unimplemented :=
  intros (msg & w' & H); revert H;
  unfold mbind, M_bind, mret, M_ret, dict_setitem, dict_items, dict_new,
    os_system, write_file;
  repeat case_match; congruence.

Lemma CPU_init_never_unimplemented (num_procs : Z) (lmp_exec : string)
    (args : ref) (w : world) :
  ¬ signals_unimplemented (CPU.init num_procs lmp_exec args w).
Proof. unfold CPU.init. never_unimplemented. Qed.

Lemma GPU_init_never_unimplemented (gpu_per_node : Z) (lmp_exec : string)
    (args : ref) (w : world) :
  ¬ signals_unimplemented (GPU.init gpu_per_node lmp_exec args w).
Proof. unfold GPU.init. never_unimplemented. Qed.

Lemma SlurmCPU_init_never_unimplemented (num_nodes : Z) (lmp_exec : string)
    (settings args : ref) (procs_per_node : Z) (lmp_module : string)
    (generate_jobscript : bool) (jobscript : string) (w : world) :
  ¬ signals_unimplemented
      (SlurmCPU.init num_nodes lmp_exec settings args procs_per_node
         lmp_module generate_jobscript jobscript w).
Proof. unfold SlurmCPU.init. never_unimplemented. Qed.

Lemma SlurmGPU_init_never_unimplemented (gpu_per_node : Z) (lmp_exec : string)
    (settings args : ref) (generate_jobscript : bool) (jobscript : string)
    (w : world) :
  ¬ signals_unimplemented
      (SlurmGPU.init gpu_per_node lmp_exec settings args generate_jobscript
         jobscript w).
Proof. unfold SlurmGPU.init. never_unimplemented. Qed.

Lemma gen_jobscript_never_unimplemented (args : ref) (var : dict) (w : world) :
  (∀ self, ¬ signals_unimplemented (SlurmCPU.gen_jobscript self args var w))
  ∧ (∀ self, ¬ signals_unimplemented (SlurmGPU.gen_jobscript self args var w)).
Proof.
  split; intros self.
  - unfold SlurmCPU.gen_jobscript. never_unimplemented.
  - unfold SlurmGPU.gen_jobscript. never_unimplemented.
Qed.

Lemma launch_never_unimplemented (t : target) (lmp_script : string)
    (var : dict) (w : world) :
  ¬ signals_unimplemented (launch t lmp_script var w).
Proof.
  destruct t as [self|self|self|self]; cbn [launch].
  - unfold CPU.call. never_unimplemented.
  - unfold GPU.call. never_unimplemented.
  - unfold SlurmCPU.call, SlurmCPU.gen_jobscript. never_unimplemented.
  - unfold SlurmGPU.call, SlurmGPU.gen_jobscript. never_unimplemented.
Qed.

(** C10. Both operations of [Computer] stop at once with a
    [NotImplementedError] that names the class and the operation, whatever
    the arguments, and leave the world as it was.  No operation of the four
    classes that implement [Computer] signals that error. *)
Theorem only_Computer_signals_unimplemented :
  (∀ (cls lmp_exec : string) (args : ref) (w : world),
     Computer.init cls lmp_exec args w
     = Raise (NotImplementedError
                ("Class " +:+ cls +:+ " has no instance '__init__'.")) w)
  ∧ (∀ (cls lmp_script : string) (var : dict) (w : world),
       Computer.call cls lmp_script var w
       = Raise (NotImplementedError
                  ("Class " +:+ cls +:+ " has no instance '__call__'.")) w)
  ∧ (∀ num_procs lmp_exec args w,
       ¬ signals_unimplemented (CPU.init num_procs lmp_exec args w))
  ∧ (∀ gpu_per_node lmp_exec args w,
       ¬ signals_unimplemented (GPU.init gpu_per_node lmp_exec args w))
  ∧ (∀ num_nodes lmp_exec settings args procs_per_node lmp_module
       generate_jobscript jobscript w,
       ¬ signals_unimplemented
           (SlurmCPU.init num_nodes lmp_exec settings args procs_per_node
              lmp_module generate_jobscript jobscript w))
  ∧ (∀ gpu_per_node lmp_exec settings args generate_jobscript jobscript w,
       ¬ signals_unimplemented
           (SlurmGPU.init gpu_per_node lmp_exec settings args
              generate_jobscript jobscript w))
  ∧ (∀ self args var w,
       ¬ signals_unimplemented (SlurmCPU.gen_jobscript self args var w))
  ∧ (∀ self args var w,
       ¬ signals_unimplemented (SlurmGPU.gen_jobscript self args var w))
  ∧ (∀ t lmp_script var w,
       ¬ signals_unimplemented (launch t lmp_script var w)).
Proof.
  split; [done|]. split; [done|].
  split; [apply CPU_init_never_unimplemented|].
  split; [apply GPU_init_never_unimplemented|].
  split; [apply SlurmCPU_init_never_unimplemented|].
  split; [apply SlurmGPU_init_never_unimplemented|].
  split; [intros; apply gen_jobscript_never_unimplemented|].
  split; [intros; apply gen_jobscript_never_unimplemented|].
  apply launch_never_unimplemented.
Qed.

(** ** Instances and counterexamples *)

(** Distinct keys, by computation. *)
Lemma wf_dict_decide (d : dict) :
  bool_decide (NoDup (keys d)) = true → wf_dict d.
Proof. apply bool_decide_eq_true_1. Qed.

(** A store with a dictionary of options and one of settings from a
    caller. *)
Lemma caller_overrides_defaults_GPU :
  let w := {| heap := [[("-sf", "gpu"); ("-log", "none")];
                       [("time", "01:00:00")]];
              files := ∅; shell := [] |} in
  ∃ self w',
    GPU.init 2 "lmp" 0%nat w = Ok self w'
    ∧ fresh_merge w w' (GPU.args self) (GPU.default_args 2)
        [("-sf", "gpu"); ("-log", "none")]
    ∧ ∀ lmp_script var, ∃ w'',
        GPU.call self lmp_script var w' = Ok () w''
        ∧ ∀ k, k ≠ "-in" →
            stored_value w'' (GPU.args self) k
            = stored_value w' (GPU.args self) k.
Proof.
  intros w.
  refine (proj1 (caller_overrides_defaults w 0%nat 1%nat
                   [("-sf", "gpu"); ("-log", "none")] [("time", "01:00:00")]
                   _ _ _ _) 2 "lmp").
  - reflexivity.
  - apply wf_dict_decide. reflexivity.
  - reflexivity.
  - apply wf_dict_decide. reflexivity.
Defined.

(** [GPU(gpu_per_node=2)] right after import, launched on [in.melt]. *)
Lemma GPU_two_devices_after_import :
  ∃ (self : GPU.t) (w1 w2 : world) (d : dict),
    GPU.new (Some 2) None None initial_world = Ok self w1
    ∧ GPU.call self "in.melt" [("T", "300")] w1 = Ok () w2
    ∧ heap w2 !! GPU.args self = Some d
    ∧ d = [("-pk", "kokkos newton on comm no"); ("-k", "on g 2");
           ("-sf", "kk"); ("-in", "in.melt")]
    ∧ is_Some (dict_get "-pk" d)
    ∧ dict_get "-k" d = Some "on g 2"
    ∧ dict_get "-sf" d = Some "kk"
    ∧ dict_get "-in" d = Some "in.melt"
    ∧ last (shell w2)
      = Some (Computer.run_lammps (GPU.gpu_per_node self) (GPU.lmp_exec self)
                d [("T", "300")])
    ∧ GPU.gpu_per_node self = 2
    ∧ ∃ rest, Computer.run_lammps (GPU.gpu_per_node self) (GPU.lmp_exec self)
                d [("T", "300")]
              = "mpirun -n 2 " +:+ rest.
Proof.
  apply (GPU_two_devices initial_world None "in.melt" [("T", "300")]).
  reflexivity.
Defined.

(** [SlurmCPU(2)] right after import, with the default options. *)
Lemma SlurmCPU_two_nodes_after_import :
  ∃ (self : SlurmCPU.t) (w1 : world) (sd : dict),
    SlurmCPU.new 2 None None (Some SlurmCPU.args_default) (Some 16) None
      (Some true) None initial_world = Ok self w1
    ∧ SlurmCPU.num_procs self = 32
    ∧ heap w1 !! SlurmCPU.settings self = Some sd
    ∧ dict_get "ntasks" sd = Some "32"
    ∧ dict_get "nodes" sd = Some "2"
    ∧ ∃ (w2 : world) (d' : dict) (text : string),
        SlurmCPU.call self "in.melt" [("T", "300")] w1 = Ok () w2
        ∧ heap w2 !! SlurmCPU.args self = Some d'
        ∧ d' = dict_set "-in" "in.melt" []
        ∧ files w2 !! SlurmCPU.jobscript self = Some text
        ∧ (∃ pre, text = pre +:+ nl
                         +:+ Computer.run_lammps 32 (SlurmCPU.lmp_exec self)
                               d' [("T", "300")])
        ∧ (single_line (Computer.run_lammps 32 (SlurmCPU.lmp_exec self) d'
                          [("T", "300")]) = true →
           last_line text
           = Some (Computer.run_lammps 32 (SlurmCPU.lmp_exec self) d'
                     [("T", "300")])).
Proof.
  apply (SlurmCPU_two_nodes initial_world None None None
           SlurmCPU.args_default [] "in.melt" [("T", "300")]);
    reflexivity.
Defined.

(** [CPU()] right after import, launched with its own options as the
    variables, [c('in.melt', c.args)]: the entry assigned by the call shows
    among the variables of the command. *)
Lemma CPU_call_with_own_options :
  CPU.call_ref (CPU.Build 4 "lmp_mpi" CPU.args_default) "in.melt"
    CPU.args_default initial_world
  = Ok () {| heap := <[CPU.args_default := [("-in", "in.melt")]]>
                       (heap initial_world);
             files := ∅;
             shell := ["mpirun -n 4 lmp_mpi -in in.melt -var -in in.melt "] |}.
Proof. vm_compute. reflexivity. Qed.

(** Two launches on [CPU()] right after import, each with the options of
    the target themselves as the variables. *)
Lemma launches_render_one_script_CPU :
  let t := OnCPU (CPU.Build 4 "lmp_mpi" CPU.args_default) in
  ∃ (w' : world) (d' v before after : dict),
    launches_ref (λ _, true) t
      ([("in.melt", CPU.args_default)] ++ [("in.quench", CPU.args_default)])
      initial_world = Ok () w'
    ∧ heap w' !! target_args t = Some d'
    ∧ d' = dict_set "-in" "in.quench" []
    ∧ entries "-in" d' = 1%nat
    ∧ dict_get "-in" d' = Some "in.quench"
    ∧ d' = before ++ [("-in", "in.quench")] ++ after
    ∧ ("-in" ∉ keys before)
    ∧ ("-in" ∉ keys after)
    ∧ heap w' !! CPU.args_default = Some v
    ∧ rendered_last t initial_world w'
        (command_head t
           +:+ join ((λ kv, kv.1 +:+ " " +:+ kv.2 +:+ " ") <$> before)
           +:+ ("-in " +:+ "in.quench" +:+ " ")
           +:+ join ((λ kv, kv.1 +:+ " " +:+ kv.2 +:+ " ") <$> after)
           +:+ join ((λ kv, "-var " +:+ kv.1 +:+ " " +:+ kv.2 +:+ " ") <$> v))
    ∧ (∀ r, r ≠ target_args t → heap w' !! r = heap initial_world !! r).
Proof.
  intros t.
  apply (launches_render_one_script (λ _, true) t
           [("in.melt", CPU.args_default)] "in.quench" CPU.args_default
           initial_world []).
  - reflexivity.
  - apply wf_dict_decide. reflexivity.
  - exact I.
  - apply Forall_cons. split; [by eexists|].
    apply Forall_cons. split; [by eexists|]. constructor.
  - intros path Hpath. discriminate Hpath.
Defined.

(** A [SlurmGPU] with one setting, one option and one variable. *)
Lemma SlurmGPU_script_lines_one_setting :
  let self := SlurmGPU.Build 1 "lmp" true "jobscript" 1%nat 0%nat in
  let w := {| heap := [[("job-name", "melt")]; [("-in", "in.melt")];
                       [("T", "300")]];
              files := ∅; shell := [] |} in
  ∃ (w' : world) (text : string),
    SlurmGPU.gen_jobscript_ref (λ _, true) self 1%nat 2%nat w = Ok () w'
    ∧ files w' !! "jobscript" = Some text
    ∧ split_lines text
      = ["#!/bin/bash"; ""; "#SBATCH --job-name=melt"; "#";
         "echo $CUDA_VISIBLE_DEVICES";
         "mpirun -n 1 lmp -in in.melt -var T 300 "]
    ∧ last_line text = Some "mpirun -n 1 lmp -in in.melt -var T 300 "
    ∧ Forall (λ l, module_or_errexit_line l = false) (split_lines text).
Proof.
  intros self w.
  destruct (SlurmGPU_script_lines (λ _, true) self 1%nat 2%nat w
              [("job-name", "melt")] [("-in", "in.melt")] [("T", "300")]
              eq_refl eq_refl eq_refl eq_refl)
    as (w' & text & Hrun & Hfile & _ & Hlines & _).
  destruct Hlines as (Hlines & Hlast & Hnone).
  { by repeat constructor. }
  { vm_compute. reflexivity. }
  exists w', text. do 2 (split; [assumption|]).
  split; [rewrite Hlines; vm_compute; reflexivity|].
  split; [rewrite Hlast; vm_compute; reflexivity|]. exact Hnone.
Defined.

(** A [SlurmCPU] with two settings, one option and one variable. *)
Lemma SlurmCPU_script_text_two_settings :
  let self := SlurmCPU.Build 2 32 "lmp_mpi" "LAMMPS/13Mar18-foss-2018a" true
                "jobscript" 0%nat 1%nat in
  let w := {| heap := [[("job-name", "melt"); ("ntasks", "32")];
                       [("-in", "in.melt")]; [("T", "300")]];
              files := ∅; shell := [] |} in
  ∃ (w' : world) (text : string),
    SlurmCPU.gen_jobscript_ref (λ _, true) self 1%nat 2%nat w = Ok () w'
    ∧ heap w' = heap w
    ∧ shell w' = shell w
    ∧ files w' !! "jobscript" = Some text
    ∧ split_lines text
      = ["#!/bin/bash"; "";
         "#SBATCH --job-name=melt"; "#";
         "#SBATCH --ntasks=32"; "#";
         "## Set up job environment:";
         "source /cluster/bin/jobsetup";
         "module purge";
         "set -o errexit";
         "";
         "module load LAMMPS/13Mar18-foss-2018a";
         "";
         "mpirun -n 32 lmp_mpi -in in.melt -var T 300 "].
Proof.
  intros self w.
  destruct (SlurmCPU_script_text (λ _, true) self 1%nat 2%nat w
              [("job-name", "melt"); ("ntasks", "32")] [("-in", "in.melt")]
              [("T", "300")] eq_refl eq_refl eq_refl eq_refl)
    as (w' & text & Hrun & Hheap & Hshell & Hfile & _ & Hlines).
  exists w', text. do 4 (split; [assumption|]).
  rewrite Hlines.
  - vm_compute. reflexivity.
  - by repeat constructor.
  - reflexivity.
  - vm_compute. reflexivity.
Defined.

(** A setting whose value holds a line break gives the script one line
    more than it has pieces: the pieces are the lines only when the
    configured strings hold no line break. *)
Lemma SlurmCPU_setting_with_line_break :
  let self := SlurmCPU.Build 2 32 "lmp_mpi" "LAMMPS/13Mar18-foss-2018a" true
                "jobscript" 0%nat 1%nat in
  let sd := [("job-name", "a" +:+ nl +:+ "b")] in
  let cmd := Computer.run_lammps 32 "lmp_mpi" [("-in", "in.melt")] [] in
  let pieces :=
    ["#!/bin/bash"; ""]
      ++ flat_map (λ kv, ["#SBATCH --" +:+ kv.1 +:+ "=" +:+ kv.2; "#"]) sd
      ++ ["## Set up job environment:";
          "source /cluster/bin/jobsetup";
          "module purge";
          "set -o errexit";
          "";
          "module load " +:+ SlurmCPU.lmp_module self;
          ""] in
  let text := SlurmCPU.jobscript_text self sd [("-in", "in.melt")] [] in
  text = join ((λ l, l +:+ nl) <$> pieces) +:+ cmd
  ∧ split_lines text !! 2%nat = Some "#SBATCH --job-name=a"
  ∧ split_lines text !! 3%nat = Some "b"
  ∧ length (split_lines text) = 13%nat
  ∧ length (pieces ++ [cmd]) = 12%nat
  ∧ split_lines text ≠ pieces ++ [cmd].
Proof.
  intros self sd cmd pieces text.
  split; [apply SlurmCPU_jobscript_text_join|].
  do 4 (split; [vm_compute; reflexivity|]).
  intros Heq. apply (f_equal length) in Heq. vm_compute in Heq.
  discriminate Heq.
Qed.

(** C6 fails as stated: a variable whose value holds a line break cuts the
    command in two, and the last line of the script is only its tail. *)
Lemma last_line_is_tail_of_command :
  ∃ (self : SlurmCPU.t) (w1 w2 : world) (text : string),
    SlurmCPU.new 2 None None None (Some 16) None None None initial_world
    = Ok self w1
    ∧ SlurmCPU.call self "in.melt" [("note", "a" +:+ nl +:+ "b")] w1
      = Ok () w2
    ∧ heap w2 !! SlurmCPU.args self = Some [("-in", "in.melt")]
    ∧ files w2 !! SlurmCPU.jobscript self = Some text
    ∧ last_line text = Some "b "
    ∧ last_line text
      ≠ Some (Computer.run_lammps 32 (SlurmCPU.lmp_exec self)
                [("-in", "in.melt")] [("note", "a" +:+ nl +:+ "b")]).
Proof.
  eexists _, _, _, _. do 4 (split; [lazy; reflexivity|]).
  split; [vm_compute; reflexivity|]. vm_compute. discriminate.
Qed.

(** C7 fails as stated: a variable whose value holds a line break starts a
    new line inside the command, and the script of [SlurmGPU] then holds a
    line that loads a module. *)
Lemma SlurmGPU_module_line_from_variable :
  ∃ (self : SlurmGPU.t) (w1 w2 : world) (text : string),
    SlurmGPU.new None None None None None None initial_world = Ok self w1
    ∧ SlurmGPU.call self "in.melt" [("note", "x" +:+ nl +:+ "module load y")]
        w1 = Ok () w2
    ∧ files w2 !! SlurmGPU.jobscript self = Some text
    ∧ split_lines text !! 14%nat = Some "echo $CUDA_VISIBLE_DEVICES"
    ∧ split_lines text !! 16%nat = Some "module load y "
    ∧ module_or_errexit_line "module load y " = true
    ∧ ¬ Forall (λ l, module_or_errexit_line l = false) (split_lines text).
Proof.
  eexists _, _, _, _. do 3 (split; [lazy; reflexivity|]).
  split; [vm_compute; reflexivity|].
  assert (split_lines
            (SlurmGPU.jobscript_text
               (SlurmGPU.Build 1 "lmp" true "jobscript" 7%nat 8%nat)
               (dict_merge (SlurmGPU.default_settings 1) [])
               (dict_set "-in" "in.melt"
                  (dict_merge (SlurmGPU.default_args 1) []))
               [("note", "x" +:+ nl +:+ "module load y")]) !! 16%nat
          = Some "module load y ") as Hline
    by (vm_compute; reflexivity).
  split; [exact Hline|]. split; [reflexivity|].
  intros Hall. rewrite Forall_lookup in Hall.
  specialize (Hall _ _ Hline). discriminate Hall.
Qed.

(** C8 fails as stated: the script of [SlurmCPU] holds lines the described
    layout has not, the first of them the empty line after the shebang and
    the [#] after each directive. *)
Lemma SlurmCPU_script_not_as_described :
  ∃ (self : SlurmCPU.t) (w1 w2 : world) (sd : dict) (text : string),
    SlurmCPU.new 2 None None None None None None None initial_world
    = Ok self w1
    ∧ SlurmCPU.call self "in.melt" [] w1 = Ok () w2
    ∧ heap w2 !! SlurmCPU.settings self = Some sd
    ∧ files w2 !! SlurmCPU.jobscript self = Some text
    ∧ split_lines text !! 3%nat = Some "#"
    ∧ ("#" ∉ layout_as_described sd (SlurmCPU.lmp_module self)
               (Computer.run_lammps (SlurmCPU.num_procs self)
                  (SlurmCPU.lmp_exec self) [("-in", "in.melt")] []))
    ∧ split_lines text
      ≠ layout_as_described sd (SlurmCPU.lmp_module self)
          (Computer.run_lammps (SlurmCPU.num_procs self)
             (SlurmCPU.lmp_exec self) [("-in", "in.melt")] []).
Proof.
  eexists _, _, _, _, _. do 4 (split; [lazy; reflexivity|]).
  split; [vm_compute; reflexivity|]. split.
  - intros Hin. apply list_elem_of_In in Hin. vm_compute in Hin.
    intuition discriminate.
  - intros Heq. vm_compute in Heq. discriminate Heq.
Qed.

(** * Further properties of the launch targets *)

(** ** Submission to the queue *)

Lemma SlurmCPU_call_ref_no_script (can_open : string → bool)
    (self : SlurmCPU.t) (lmp_script : string) (var : ref) (w : world)
    (d : dict) :
  heap w !! SlurmCPU.args self = Some d →
  SlurmCPU.generate_jobscript self = false →
  SlurmCPU.call_ref can_open self lmp_script var w
  = Ok () {| heap := <[SlurmCPU.args self := dict_set "-in" lmp_script d]>
                       (heap w);
             files := files w;
             shell := shell w ++ ["sbatch " +:+ SlurmCPU.jobscript self] |}.
Proof.
  intros Hd Hgen. unfold SlurmCPU.call_ref. step. rewrite Hgen. by step.
Qed.

Lemma SlurmGPU_call_ref_no_script (can_open : string → bool)
    (self : SlurmGPU.t) (lmp_script : string) (var : ref) (w : world)
    (d : dict) :
  heap w !! SlurmGPU.args self = Some d →
  SlurmGPU.generate_jobscript self = false →
  SlurmGPU.call_ref can_open self lmp_script var w
  = Ok () {| heap := <[SlurmGPU.args self := dict_set "-in" lmp_script d]>
                       (heap w);
             files := files w;
             shell := shell w ++ ["sbatch " +:+ SlurmGPU.jobscript self] |}.
Proof.
  intros Hd Hgen. unfold SlurmGPU.call_ref. step. rewrite Hgen. by step.
Qed.

(** X1. What a call of [SlurmCPU] or [SlurmGPU] comes to.  In every case
    ["-in"] is assigned in the stored options first.  With
    [generate_jobscript=False] the call writes no file and gives the shell
    [sbatch <jobscript>], whatever the variables and the file system are.
    With [generate_jobscript=True] and a path that can be opened, the call
    writes the job script and no other file, then gives the shell
    [sbatch <jobscript>].  With [generate_jobscript=True] and a path that
    cannot be opened, the call stops with the error of [open]: nothing is
    written and nothing is submitted. *)
Theorem Slurm_call_outcomes (can_open : string → bool) (w : world)
    (lmp_script : string) (var : ref) :
  (∀ (self : SlurmCPU.t) (d : dict),
     heap w !! SlurmCPU.args self = Some d →
     is_Some (heap w !! SlurmCPU.settings self) →
     is_Some (heap w !! var) →
     (SlurmCPU.generate_jobscript self = false →
      ∃ w', SlurmCPU.call_ref can_open self lmp_script var w = Ok () w'
            ∧ heap w' !! SlurmCPU.args self
              = Some (dict_set "-in" lmp_script d)
            ∧ shell w' = shell w ++ ["sbatch " +:+ SlurmCPU.jobscript self]
            ∧ files w' = files w
            ∧ ∀ can_open' var',
                SlurmCPU.call_ref can_open' self lmp_script var' w = Ok () w')
     ∧ (SlurmCPU.generate_jobscript self = true →
        can_open (SlurmCPU.jobscript self) = true →
        ∃ w', SlurmCPU.call_ref can_open self lmp_script var w = Ok () w'
              ∧ heap w' !! SlurmCPU.args self
                = Some (dict_set "-in" lmp_script d)
              ∧ shell w' = shell w ++ ["sbatch " +:+ SlurmCPU.jobscript self]
              ∧ is_Some (files w' !! SlurmCPU.jobscript self)
              ∧ ∀ path, path ≠ SlurmCPU.jobscript self →
                  files w' !! path = files w !! path)
     ∧ (SlurmCPU.generate_jobscript self = true →
        can_open (SlurmCPU.jobscript self) = false →
        ∃ w', SlurmCPU.call_ref can_open self lmp_script var w
              = Raise (OSError (SlurmCPU.jobscript self)) w'
              ∧ heap w' !! SlurmCPU.args self
                = Some (dict_set "-in" lmp_script d)
              ∧ shell w' = shell w
              ∧ files w' = files w))
  ∧ (∀ (self : SlurmGPU.t) (d : dict),
       heap w !! SlurmGPU.args self = Some d →
       is_Some (heap w !! SlurmGPU.settings self) →
       is_Some (heap w !! var) →
       (SlurmGPU.generate_jobscript self = false →
        ∃ w', SlurmGPU.call_ref can_open self lmp_script var w = Ok () w'
              ∧ heap w' !! SlurmGPU.args self
                = Some (dict_set "-in" lmp_script d)
              ∧ shell w' = shell w ++ ["sbatch " +:+ SlurmGPU.jobscript self]
              ∧ files w' = files w
              ∧ ∀ can_open' var',
                  SlurmGPU.call_ref can_open' self lmp_script var' w
                  = Ok () w')
       ∧ (SlurmGPU.generate_jobscript self = true →
          can_open (SlurmGPU.jobscript self) = true →
          ∃ w', SlurmGPU.call_ref can_open self lmp_script var w = Ok () w'
                ∧ heap w' !! SlurmGPU.args self
                  = Some (dict_set "-in" lmp_script d)
                ∧ shell w'
                  = shell w ++ ["sbatch " +:+ SlurmGPU.jobscript self]
                ∧ is_Some (files w' !! SlurmGPU.jobscript self)
                ∧ ∀ path, path ≠ SlurmGPU.jobscript self →
                    files w' !! path = files w !! path)
       ∧ (SlurmGPU.generate_jobscript self = true →
          can_open (SlurmGPU.jobscript self) = false →
          ∃ w', SlurmGPU.call_ref can_open self lmp_script var w
                = Raise (OSError (SlurmGPU.jobscript self)) w'
                ∧ heap w' !! SlurmGPU.args self
                  = Some (dict_set "-in" lmp_script d)
                ∧ shell w' = shell w
                ∧ files w' = files w)).
Proof.
  split; intros self d Hd Hset Hvar.
  - apply (list_lookup_insert_is_Some _ (SlurmCPU.args self)
             (dict_set "-in" lmp_script d)) in Hset as [sd Hsd].
    apply (list_lookup_insert_is_Some _ (SlurmCPU.args self)
             (dict_set "-in" lmp_script d)) in Hvar as [v Hv].
    split; [|split].
    + intros Hgen. eexists.
      split; [by apply SlurmCPU_call_ref_no_script|]. cbn [heap files shell].
      split; [by eapply lookup_setitem|]. do 2 (split; [done|]).
      intros can_open' var'. by apply SlurmCPU_call_ref_no_script.
    + intros Hgen Hopen. eexists.
      split; [by eapply SlurmCPU_call_ref_Ok|]. cbn [heap files shell].
      rewrite Hgen. split; [by eapply lookup_setitem|]. split; [done|].
      split; [rewrite lookup_insert_eq; by eexists|].
      intros path Hpath. by rewrite lookup_insert_ne.
    + intros Hgen Hopen. eexists.
      split; [by apply SlurmCPU_call_ref_OSError|]. cbn [heap files shell].
      split; [by eapply lookup_setitem|]. done.
  - apply (list_lookup_insert_is_Some _ (SlurmGPU.args self)
             (dict_set "-in" lmp_script d)) in Hset as [sd Hsd].
    apply (list_lookup_insert_is_Some _ (SlurmGPU.args self)
             (dict_set "-in" lmp_script d)) in Hvar as [v Hv].
    split; [|split].
    + intros Hgen. eexists.
      split; [by apply SlurmGPU_call_ref_no_script|]. cbn [heap files shell].
      split; [by eapply lookup_setitem|]. do 2 (split; [done|]).
      intros can_open' var'. by apply SlurmGPU_call_ref_no_script.
    + intros Hgen Hopen. eexists.
      split; [by eapply SlurmGPU_call_ref_Ok|]. cbn [heap files shell].
      rewrite Hgen. split; [by eapply lookup_setitem|]. split; [done|].
      split; [rewrite lookup_insert_eq; by eexists|].
      intros path Hpath. by rewrite lookup_insert_ne.
    + intros Hgen Hopen. eexists.
      split; [by apply SlurmGPU_call_ref_OSError|]. cbn [heap files shell].
      split; [by eapply lookup_setitem|]. done.
Qed.


(** ** Commands of the local targets *)

(** The variables a launch on [t] renders when it is given the object
    [var]: the stored options themselves, after the assignment, when [var]
    is that object; else what [var] held before. *)
Lemma local_launches_from (can_open : string → bool) (t : target)
    (runs : list (string * ref)) (w : world) (h0 : list dict) (d d0 : dict) :
  match t with OnCPU _ | OnGPU _ => True | _ => False end →
  heap w !! target_args t = Some d →
  (∀ s, dict_set "-in" s d = dict_set "-in" s d0) →
  (∀ r, r ≠ target_args t → heap w !! r = h0 !! r) →
  Forall (λ run, is_Some (heap w !! run.2)) runs →
  ∃ w' : world,
    launches_ref can_open t runs w = Ok () w'
    ∧ shell w'
      = shell w
          ++ ((λ run, command_line t (dict_set "-in" run.1 d0)
                        (if decide (run.2 = target_args t)
                         then dict_set "-in" run.1 d0
                         else default [] (h0 !! run.2)))
                <$> runs)
    ∧ files w' = files w.
Proof.
  intros Hlocal. revert w d.
  induction runs as [|[s r] runs IH]; intros w d Hd Hset Hh0 Hvars.
  - exists w. split; [done|]. by rewrite app_nil_r.
  - apply Forall_cons in Hvars as [[v0 Hv0] Hvars]. cbn [snd] in Hv0.
    set (d' := dict_set "-in" s d).
    assert (<[target_args t := d']> (heap w) !! r
            = Some (if decide (r = target_args t) then d'
                    else default [] (h0 !! r))) as Hv.
    { destruct (decide (r = target_args t)) as [->|Hne].
      - by eapply lookup_setitem.
      - rewrite list_lookup_insert_ne by done.
        rewrite <- Hh0 by done. by rewrite Hv0. }
    assert (∃ w1, launch_ref can_open t s r w = Ok () w1
                  ∧ heap w1 = <[target_args t := d']> (heap w)
                  ∧ shell w1
                    = shell w
                        ++ [command_line t d'
                              (if decide (r = target_args t) then d'
                               else default [] (h0 !! r))]
                  ∧ files w1 = files w) as (w1 & Hrun & Hh & Hsh & Hf).
    { destruct t as [self|self|self|self]; try done.
      - eexists. split; [by apply CPU_call_ref_Ok|]. done.
      - eexists. split; [by apply GPU_call_ref_Ok|]. done. }
    destruct (IH w1 d') as (w' & Hrun' & Hsh' & Hf').
    { rewrite Hh. by eapply lookup_setitem. }
    { intros s'. subst d'. by rewrite dict_set_set, Hset. }
    { intros r' Hr'. rewrite Hh, list_lookup_insert_ne by done.
      by apply Hh0. }
    { eapply Forall_impl; [exact Hvars|]. intros run Hrun0.
      rewrite Hh. by rewrite list_lookup_insert_is_Some. }
    exists w'. cbn [launches_ref]. erewrite bind_Ok by exact Hrun.
    split; [exact Hrun'|]. split; [|congruence].
    rewrite Hsh', Hsh. subst d'. rewrite Hset, <- app_assoc. reflexivity.
Qed.

(** X2. A sequence of launches on a [CPU] or a [GPU] writes no file and
    gives the shell one command per launch, in order.  The command of each
    launch is rendered from the options the target had before the first
    launch, with ["-in"] set to its own script, and from its own variables:
    nothing of an earlier launch shows in a later command.  When the
    variables passed are the stored options themselves, the assigned
    ["-in"] shows among the variables too. *)
Theorem local_launches_commands (can_open : string → bool) (t : target)
    (runs : list (string * ref)) (w : world) (d : dict) :
  match t with OnCPU _ | OnGPU _ => True | _ => False end →
  heap w !! target_args t = Some d →
  Forall (λ run, is_Some (heap w !! run.2)) runs →
  ∃ w' : world,
    launches_ref can_open t runs w = Ok () w'
    ∧ shell w'
      = shell w
          ++ ((λ run, command_line t (dict_set "-in" run.1 d)
                        (if decide (run.2 = target_args t)
                         then dict_set "-in" run.1 d
                         else default [] (heap w !! run.2)))
                <$> runs)
    ∧ files w' = files w.
Proof.
  intros Hlocal Hd Hvars.
  by apply (local_launches_from can_open t runs w (heap w) d d).
Qed.

(** ** Whose dictionary a launch changes *)

(** X3. [CPU] and [SlurmCPU] store the very dictionary the caller passes as
    [args]: a launch assigns ["-in"] in the caller's dictionary, and a
    second instance made from the same dictionary starts with that
    entry. *)
Theorem CPU_call_changes_callers_dict (w : world) (args : ref) (d : dict)
    (lmp_script : string) (var : dict) :
  heap w !! args = Some d →
  (∀ num_procs lmp_exec, ∃ (self : CPU.t) (w' : world),
     CPU.init num_procs lmp_exec args w = Ok self w
     ∧ CPU.args self = args
     ∧ CPU.call self lmp_script var w = Ok () w'
     ∧ heap w' !! args = Some (dict_set "-in" lmp_script d)
     ∧ ∀ num_procs' lmp_exec', ∃ other : CPU.t,
         CPU.init num_procs' lmp_exec' args w' = Ok other w'
         ∧ heap w' !! CPU.args other = Some (dict_set "-in" lmp_script d))
  ∧ (∀ num_nodes lmp_exec settings procs_per_node lmp_module
       generate_jobscript jobscript s,
       heap w !! settings = Some s →
       ∃ (self : SlurmCPU.t) (w1 w2 : world),
         SlurmCPU.init num_nodes lmp_exec settings args procs_per_node
           lmp_module generate_jobscript jobscript w = Ok self w1
         ∧ SlurmCPU.args self = args
         ∧ SlurmCPU.call self lmp_script var w1 = Ok () w2
         ∧ heap w2 !! args = Some (dict_set "-in" lmp_script d)).
Proof.
  intros Hd. split.
  - intros n e. eexists (CPU.Build n e args), _.
    split; [reflexivity|]. split; [reflexivity|].
    split; [by apply CPU_call_Ok|].
    split; [by eapply lookup_setitem|].
    intros n' e'. exists (CPU.Build n' e' args). split; [reflexivity|].
    by eapply lookup_setitem.
  - intros n e settings p m gen j s Hs.
    pose proof (SlurmCPU_init_Ok n e settings args p m gen j w s Hs) as Hi.
    set (w1 := set_heap _ w) in Hi.
    assert (heap w1 !! args = Some d) as Hd1.
    { subst w1. rewrite heap_set_heap.
      by rewrite lookup_app_l by (by eapply lookup_lt_Some). }
    assert (args ≠ length (heap w)) as Hne
      by (apply lookup_lt_Some in Hd; lia).
    eexists _, w1, _. split; [exact Hi|]. split; [reflexivity|]. split.
    + eapply SlurmCPU_call_Ok; [exact Hd1|].
      cbn [SlurmCPU.args SlurmCPU.settings].
      rewrite list_lookup_insert_ne by done.
      subst w1. rewrite heap_set_heap. by rewrite list_lookup_middle.
    + cbn [heap SlurmCPU.args]. by eapply lookup_setitem.
Qed.

(** X4. [GPU] never stores the caller's dictionary: after construction and
    any launch the caller's dictionary is as it was, and the options the
    launch changed are an object the store did not hold before. *)
Theorem GPU_call_keeps_callers_dict (w : world) (args : ref) (d : dict)
    (gpu_per_node : Z) (lmp_exec lmp_script : string) (var : dict) :
  heap w !! args = Some d →
  ∃ (self : GPU.t) (w1 w2 : world),
    GPU.init gpu_per_node lmp_exec args w = Ok self w1
    ∧ GPU.call self lmp_script var w1 = Ok () w2
    ∧ heap w !! GPU.args self = None
    ∧ heap w2 !! args = Some d
    ∧ heap w2 !! GPU.args self
      = Some (dict_set "-in" lmp_script
                (dict_merge (GPU.default_args gpu_per_node) d)).
Proof.
  intros Hd.
  pose proof (GPU_init_Ok gpu_per_node lmp_exec args w d Hd) as Hi.
  set (w1 := set_heap _ w) in Hi.
  assert (heap w1 !! length (heap w)
          = Some (dict_merge (GPU.default_args gpu_per_node) d)) as Hst.
  { subst w1. rewrite heap_set_heap. by rewrite list_lookup_middle. }
  eexists _, w1, _. split; [exact Hi|].
  split; [by apply GPU_call_Ok|]. cbn [heap GPU.args].
  split; [by apply lookup_ge_None|]. split.
  - rewrite list_lookup_insert_ne by (apply lookup_lt_Some in Hd; lia).
    subst w1. rewrite heap_set_heap.
    by rewrite lookup_app_l by (by eapply lookup_lt_Some).
  - by eapply lookup_setitem.
Qed.

(** ** No quoting *)

(** X5. [run_lammps] writes keys and values as they are, so the command
    does not tell where a value ends: an option whose value holds a space
    renders like two options, and an option named [-var] renders like a
    variable. *)
Theorem run_lammps_no_quoting (num_procs : Z) (lmp_exec : string) :
  (∀ (before after var : dict) (k v k' v' : string),
     Computer.run_lammps num_procs lmp_exec
       (before ++ [(k, v +:+ " " +:+ k' +:+ " " +:+ v')] ++ after) var
     = Computer.run_lammps num_procs lmp_exec
         (before ++ [(k, v); (k', v')] ++ after) var)
  ∧ (∀ (args var : dict) (name value : string),
       Computer.run_lammps num_procs lmp_exec
         (args ++ [("-var", name +:+ " " +:+ value)]) var
       = Computer.run_lammps num_procs lmp_exec args ((name, value) :: var)).
Proof.
  split.
  - intros before after var k v k' v'. rewrite !run_lammps_join.
    rewrite !fmap_app, !join_app. cbn [fmap list_fmap].
    rewrite !join_cons. unfold option_segment. cbn [fst snd join foldr].
    by rewrite !append_empty_r, !append_assoc.
  - intros args var name value. rewrite !run_lammps_join.
    rewrite !fmap_app, !join_app. cbn [fmap list_fmap].
    rewrite !join_cons. unfold option_segment, variable_segment.
    cbn [fst snd join foldr].
    by rewrite !append_empty_r, !append_assoc.
Qed.

(** ** Order of the merged keys *)

Lemma filter_iff_in {A : Type} (P Q : A → Prop)
    `{!∀ x, Decision (P x)} `{!∀ x, Decision (Q x)} (l : list A) :
  (∀ x, x ∈ l → P x ↔ Q x) → filter P l = filter Q l.
Proof.
  induction l as [|x l IH]; intros Hext; [done|].
  rewrite !filter_cons.
  rewrite IH by (intros y Hy; apply Hext; by apply list_elem_of_further).
  pose proof (Hext x (list_elem_of_here x l)) as Hx.
  destruct (decide (P x)), (decide (Q x)); tauto || done.
Qed.

Lemma keys_dict_update (d items : dict) :
  wf_dict items →
  keys (dict_update d items)
  = keys d ++ filter (λ k, k ∉ keys d) (keys items).
Proof.
  unfold dict_update, wf_dict. revert d.
  induction items as [|[k v] items IH]; intros d Hwf.
  - cbn. by rewrite app_nil_r.
  - unfold keys in Hwf. rewrite fmap_cons in Hwf.
    apply NoDup_cons in Hwf as [Hnin Hwf]. cbn [fold_left fst snd].
    rewrite IH by done. cbn [fst] in Hnin.
    change (keys ((k, v) :: items)) with (k :: keys items).
    change (items.*1) with (keys items) in Hnin.
    destruct (decide (k ∈ keys d)) as [Hin|Hnotin].
    + rewrite keys_dict_set_in by done.
      by rewrite filter_cons_False by (intros H; by apply H).
    + rewrite keys_dict_set_notin by done.
      rewrite filter_cons_True by done. rewrite <- app_assoc. cbn [app].
      do 2 f_equal. apply filter_iff_in.
      intros x Hx. rewrite elem_of_app, list_elem_of_singleton.
      split; [tauto|]. intros Hxd [Hxd'| ->]; [done|].
      by apply Hnin.
Qed.

Lemma keys_dict_merge (a b : dict) :
  wf_dict a → wf_dict b →
  keys (dict_merge a b) = keys a ++ filter (λ k, k ∉ keys a) (keys b).
Proof.
  intros Ha Hb. unfold dict_merge.
  rewrite keys_dict_update by done.
  by rewrite (dict_update_fresh [] a).
Qed.

(** X6. In the dictionaries stored at construction the built-in keys come
    first, in their fixed order, whether or not the caller overrides their
    values; the keys only the caller has follow, in the caller's order.  So
    a caller can neither drop nor reorder a built-in option or scheduler
    directive. *)
Theorem merged_keys_order (w : world) (args settings : ref) (a s : dict) :
  heap w !! args = Some a → wf_dict a →
  heap w !! settings = Some s → wf_dict s →
  (∀ gpu_per_node lmp_exec, ∃ self w' stored,
     GPU.init gpu_per_node lmp_exec args w = Ok self w'
     ∧ heap w' !! GPU.args self = Some stored
     ∧ keys stored
       = ["-pk"; "-k"; "-sf"]
           ++ filter (λ k, k ∉ ["-pk"; "-k"; "-sf"]) (keys a))
  ∧ (∀ num_nodes lmp_exec procs_per_node lmp_module generate_jobscript
       jobscript, ∃ self w' stored,
       SlurmCPU.init num_nodes lmp_exec settings args procs_per_node
         lmp_module generate_jobscript jobscript w = Ok self w'
       ∧ heap w' !! SlurmCPU.settings self = Some stored
       ∧ keys stored
         = ["job-name"; "account"; "time"; "partition"; "ntasks"; "nodes";
            "output"]
             ++ filter (λ k, k ∉ ["job-name"; "account"; "time"; "partition";
                                  "ntasks"; "nodes"; "output"]) (keys s))
  ∧ (∀ gpu_per_node lmp_exec generate_jobscript jobscript,
       ∃ self w' stored_args stored_settings,
       SlurmGPU.init gpu_per_node lmp_exec settings args generate_jobscript
         jobscript w = Ok self w'
       ∧ heap w' !! SlurmGPU.args self = Some stored_args
       ∧ keys stored_args
         = ["-pk"; "-k"; "-sf"]
             ++ filter (λ k, k ∉ ["-pk"; "-k"; "-sf"]) (keys a)
       ∧ heap w' !! SlurmGPU.settings self = Some stored_settings
       ∧ keys stored_settings
         = ["job-name"; "partition"; "ntasks"; "cpus-per-task"; "gres";
            "output"]
             ++ filter (λ k, k ∉ ["job-name"; "partition"; "ntasks";
                                  "cpus-per-task"; "gres"; "output"])
                  (keys s)).
Proof.
  intros Ha Hwa Hs Hws. split; [|split].
  - intros g e. eexists _, _, _. split; [by apply GPU_init_Ok|].
    split; [cbn [heap set_heap GPU.args]; by rewrite list_lookup_middle|].
    by rewrite keys_dict_merge by (done || apply wf_GPU_default_args).
  - intros n e p m gen j. eexists _, _, _.
    split; [by eapply SlurmCPU_init_Ok|].
    split; [cbn [heap set_heap SlurmCPU.settings];
            by rewrite list_lookup_middle|].
    by rewrite keys_dict_merge by (done || apply wf_SlurmCPU_default_settings).
  - intros g e gen j. eexists _, _, _, _.
    split; [by eapply SlurmGPU_init_Ok|].
    split; [cbn [heap set_heap SlurmGPU.args];
            by rewrite list_lookup_middle|].
    split;
      [by rewrite keys_dict_merge by (done || apply wf_SlurmGPU_default_args)|].
    split.
    + cbn [heap set_heap SlurmGPU.settings].
      rewrite (lookup_app_r (heap w)) by lia.
      by replace (S _ - _)%nat with 1%nat by lia.
    + by rewrite keys_dict_merge
        by (done || apply wf_SlurmGPU_default_settings).
Qed.

(** ** Repeating a launch *)

Lemma dict_set_idemp (k v : string) (d : dict) :
  dict_set k v (dict_set k v d) = dict_set k v d.
Proof. apply dict_set_set. Qed.

(** X7. A launch that returns, made a second time with the same script and
    the same variables, leaves every dictionary and every file as the first
    launch left them; only the shell is given the same command once
    more. *)
Theorem launch_twice (can_open : string → bool) (t : target)
    (lmp_script : string) (var : ref) (w : world) (d : dict) :
  heap w !! target_args t = Some d →
  is_Some (heap w !! var) →
  target_ok t w →
  can_write can_open t →
  ∃ (w1 w2 : world) (cmd : string),
    launch_ref can_open t lmp_script var w = Ok () w1
    ∧ launch_ref can_open t lmp_script var w1 = Ok () w2
    ∧ heap w2 = heap w1
    ∧ files w2 = files w1
    ∧ shell w1 = shell w ++ [cmd]
    ∧ shell w2 = shell w1 ++ [cmd].
Proof.
  intros Hd Hvar Hok Hopen.
  assert (<[target_args t := dict_set "-in" lmp_script d]> (heap w)
            !! target_args t = Some (dict_set "-in" lmp_script d)) as Hd'
    by (by eapply lookup_setitem).
  apply (list_lookup_insert_is_Some _ (target_args t)
           (dict_set "-in" lmp_script d)) in Hvar as [v Hv].
  assert (∀ h : list dict,
            <[target_args t := dict_set "-in" lmp_script
                                 (dict_set "-in" lmp_script d)]>
              (<[target_args t := dict_set "-in" lmp_script d]> h)
            = <[target_args t := dict_set "-in" lmp_script d]> h) as Hidem.
  { intros h. by rewrite dict_set_idemp, list_insert_insert_eq. }
  destruct t as [self|self|self|self];
    cbn [launch_ref target_args target_ok] in *.
  - eexists _, _, _. split; [by apply CPU_call_ref_Ok|]. split.
    { apply CPU_call_ref_Ok; [exact Hd'|]. cbn [heap].
      rewrite Hidem. exact Hv. }
    cbn [heap files shell]. rewrite Hidem, dict_set_idemp. done.
  - eexists _, _, _. split; [by apply GPU_call_ref_Ok|]. split.
    { apply GPU_call_ref_Ok; [exact Hd'|]. cbn [heap].
      rewrite Hidem. exact Hv. }
    cbn [heap files shell]. rewrite Hidem, dict_set_idemp. done.
  - apply (list_lookup_insert_is_Some _ (SlurmCPU.args self)
             (dict_set "-in" lmp_script d)) in Hok as [sd Hsd].
    assert (SlurmCPU.generate_jobscript self = true →
            can_open (SlurmCPU.jobscript self) = true) as Hopen'.
    { intros Hgen. apply Hopen. cbn. by rewrite Hgen. }
    eexists _, _, _. split; [by eapply SlurmCPU_call_ref_Ok|]. split.
    { eapply SlurmCPU_call_ref_Ok; [exact Hd'| | |exact Hopen'];
        cbn [heap]; rewrite Hidem; [exact Hsd|exact Hv]. }
    cbn [heap files shell]. rewrite Hidem, dict_set_idemp.
    split; [done|]. split; [|done].
    destruct (SlurmCPU.generate_jobscript self); [|done].
    by rewrite insert_insert_eq.
  - apply (list_lookup_insert_is_Some _ (SlurmGPU.args self)
             (dict_set "-in" lmp_script d)) in Hok as [sd Hsd].
    assert (SlurmGPU.generate_jobscript self = true →
            can_open (SlurmGPU.jobscript self) = true) as Hopen'.
    { intros Hgen. apply Hopen. cbn. by rewrite Hgen. }
    eexists _, _, _. split; [by eapply SlurmGPU_call_ref_Ok|]. split.
    { eapply SlurmGPU_call_ref_Ok; [exact Hd'| | |exact Hopen'];
        cbn [heap]; rewrite Hidem; [exact Hsd|exact Hv]. }
    cbn [heap files shell]. rewrite Hidem, dict_set_idemp.
    split; [done|]. split; [|done].
    destruct (SlurmGPU.generate_jobscript self); [|done].
    by rewrite insert_insert_eq.
Qed.

(** ** Process and device counts *)

(** X8. For every node count, processes per node and settings of the
    caller, [SlurmCPU] runs [mpirun] with [num_nodes * procs_per_node]
    processes.  The directives [ntasks] and [nodes] carry that product and
    the node count unless the caller's settings give these keys, in which
    case the caller's values are written while the process count of
    [mpirun] stays the product. *)
Theorem SlurmCPU_task_count (w : world) (num_nodes : Z) (lmp_exec : string)
    (settings args : ref) (procs_per_node : Z) (lmp_module : string)
    (generate_jobscript : bool) (jobscript : string) (s : dict) :
  heap w !! settings = Some s →
  wf_dict s →
  ∃ (self : SlurmCPU.t) (w' : world) (sd : dict),
    SlurmCPU.init num_nodes lmp_exec settings args procs_per_node lmp_module
      generate_jobscript jobscript w = Ok self w'
    ∧ heap w' !! SlurmCPU.settings self = Some sd
    ∧ SlurmCPU.num_procs self = num_nodes * procs_per_node
    ∧ dict_get "ntasks" sd
      = Some (default (pretty (num_nodes * procs_per_node))
                (dict_get "ntasks" s))
    ∧ dict_get "nodes" sd
      = Some (default (pretty num_nodes) (dict_get "nodes" s))
    ∧ ∀ a var, ∃ pre,
        SlurmCPU.jobscript_text self sd a var
        = pre +:+ nl
            +:+ Computer.run_lammps (num_nodes * procs_per_node) lmp_exec
                  a var.
Proof.
  intros Hs Hws. eexists _, _, _. split; [by eapply SlurmCPU_init_Ok|].
  split; [cbn [heap set_heap SlurmCPU.settings];
          by rewrite list_lookup_middle|].
  split; [reflexivity|].
  pose proof (overrides_merge
                (SlurmCPU.default_settings (num_nodes * procs_per_node)
                   num_nodes) s
                (wf_SlurmCPU_default_settings _ _) Hws) as Hov.
  split; [rewrite (Hov "ntasks"); by destruct (dict_get "ntasks" s)|].
  split; [rewrite (Hov "nodes"); by destruct (dict_get "nodes" s)|].
  intros a var. apply SlurmCPU_jobscript_text_nl.
Qed.


(** ** Instances of the further properties *)

(** A caller's dictionary with one option, given to [CPU]. *)
Lemma CPU_call_changes_callers_dict_log :
  let w := {| heap := [[("-log", "none")]]; files := ∅; shell := [] |} in
  ∃ (self : CPU.t) (w' : world),
    CPU.init 4 "lmp_mpi" 0%nat w = Ok self w
    ∧ CPU.args self = 0%nat
    ∧ CPU.call self "in.melt" [] w = Ok () w'
    ∧ heap w' !! 0%nat = Some (dict_set "-in" "in.melt" [("-log", "none")])
    ∧ ∀ num_procs' lmp_exec', ∃ other : CPU.t,
        CPU.init num_procs' lmp_exec' 0%nat w' = Ok other w'
        ∧ heap w' !! CPU.args other
          = Some (dict_set "-in" "in.melt" [("-log", "none")]).
Proof.
  intros w.
  refine (proj1 (CPU_call_changes_callers_dict w 0%nat [("-log", "none")]
                   "in.melt" [] _) 4 "lmp_mpi").
  reflexivity.
Defined.

(** The same dictionary, given to [GPU]. *)
Lemma GPU_call_keeps_callers_dict_log :
  let w := {| heap := [[("-log", "none")]]; files := ∅; shell := [] |} in
  ∃ (self : GPU.t) (w1 w2 : world),
    GPU.init 1 "lmp" 0%nat w = Ok self w1
    ∧ GPU.call self "in.melt" [] w1 = Ok () w2
    ∧ heap w !! GPU.args self = None
    ∧ heap w2 !! 0%nat = Some [("-log", "none")]
    ∧ heap w2 !! GPU.args self
      = Some (dict_set "-in" "in.melt"
                (dict_merge (GPU.default_args 1) [("-log", "none")])).
Proof.
  intros w.
  apply (GPU_call_keeps_callers_dict w 0%nat [("-log", "none")] 1 "lmp"
           "in.melt" []).
  reflexivity.
Defined.

(** Options that override [-sf] and add [-log], settings that override
    [time] and add [mem]. *)
Lemma merged_keys_order_GPU :
  let w := {| heap := [[("-log", "none"); ("-sf", "gpu")];
                       [("mem", "4G"); ("time", "01:00:00")]];
              files := ∅; shell := [] |} in
  ∃ self w' stored,
    GPU.init 1 "lmp" 0%nat w = Ok self w'
    ∧ heap w' !! GPU.args self = Some stored
    ∧ keys stored
      = ["-pk"; "-k"; "-sf"]
          ++ filter (λ k, k ∉ ["-pk"; "-k"; "-sf"])
               (keys [("-log", "none"); ("-sf", "gpu")]).
Proof.
  intros w.
  refine (proj1 (merged_keys_order w 0%nat 1%nat
                   [("-log", "none"); ("-sf", "gpu")]
                   [("mem", "4G"); ("time", "01:00:00")] _ _ _ _) 1 "lmp").
  - reflexivity.
  - apply wf_dict_decide. reflexivity.
  - reflexivity.
  - apply wf_dict_decide. reflexivity.
Defined.

(** [SlurmCPU(4, settings={"ntasks": "8"})]. *)
Lemma SlurmCPU_task_count_overridden :
  let w := {| heap := [[("ntasks", "8")]; []]; files := ∅; shell := [] |} in
  ∃ (self : SlurmCPU.t) (w' : world) (sd : dict),
    SlurmCPU.init 4 "lmp_mpi" 0%nat 1%nat 16 "LAMMPS" true "jobscript" w
    = Ok self w'
    ∧ heap w' !! SlurmCPU.settings self = Some sd
    ∧ SlurmCPU.num_procs self = 4 * 16
    ∧ dict_get "ntasks" sd
      = Some (default (pretty (4 * 16)) (dict_get "ntasks" [("ntasks", "8")]))
    ∧ dict_get "nodes" sd
      = Some (default (pretty 4) (dict_get "nodes" [("ntasks", "8")]))
    ∧ ∀ a var, ∃ pre,
        SlurmCPU.jobscript_text self sd a var
        = pre +:+ nl +:+ Computer.run_lammps (4 * 16) "lmp_mpi" a var.
Proof.
  intros w.
  apply (SlurmCPU_task_count w 4 "lmp_mpi" 0%nat 1%nat 16 "LAMMPS" true
           "jobscript" [("ntasks", "8")]).
  - reflexivity.
  - apply wf_dict_decide. reflexivity.
Defined.


(** Two [GPU]s made from the one default dictionary. *)
Lemma GPU_options_independent_default :
  ∃ (a b : GPU.t) (w1 w2 w3 : world),
    GPU.init 1 "lmp" GPU.args_default initial_world = Ok a w1
    ∧ GPU.init 2 "lmp" GPU.args_default w1 = Ok b w2
    ∧ GPU.call a "in.melt" [] w2 = Ok () w3
    ∧ GPU.args a ≠ GPU.args b
    ∧ heap w3 !! GPU.args b = heap w2 !! GPU.args b.
Proof.
  apply (GPU_options_independent initial_world 1 2 "lmp" "lmp"
           GPU.args_default GPU.args_default [] [] "in.melt" []);
    reflexivity.
Defined.

(** A file system on which the empty path cannot be opened: a [SlurmCPU]
    with the script [job.sh] submits it, one with the script [""] stops at
    [open]. *)
Lemma Slurm_call_outcomes_empty_path :
  let can_open := λ path, negb (String.eqb path "") in
  let w := {| heap := [[]; []; [("T", "300")]]; files := ∅; shell := [] |} in
  (∃ w', SlurmCPU.call_ref can_open
           (SlurmCPU.Build 2 32 "lmp_mpi" "LAMMPS" true "job.sh" 0%nat 1%nat)
           "in.melt" 2%nat w = Ok () w'
         ∧ heap w' !! 1%nat = Some [("-in", "in.melt")]
         ∧ shell w' = ["sbatch job.sh"]
         ∧ is_Some (files w' !! "job.sh"))
  ∧ (∃ w', SlurmCPU.call_ref can_open
             (SlurmCPU.Build 2 32 "lmp_mpi" "LAMMPS" true "" 0%nat 1%nat)
             "in.melt" 2%nat w = Raise (OSError "") w'
           ∧ heap w' !! 1%nat = Some [("-in", "in.melt")]
           ∧ shell w' = []
           ∧ files w' = ∅).
Proof.
  intros can_open w.
  destruct (Slurm_call_outcomes can_open w "in.melt" 2%nat) as [Hcpu _].
  split.
  - destruct (Hcpu (SlurmCPU.Build 2 32 "lmp_mpi" "LAMMPS" true "job.sh"
                      0%nat 1%nat) [])
      as (_ & Hwritten & _); [reflexivity|by eexists|by eexists|].
    destruct (Hwritten eq_refl eq_refl)
      as (w' & Hrun & Hargs & Hshell & Hfile & _).
    exists w'. split; [assumption|]. split; [exact Hargs|].
    split; [exact Hshell|exact Hfile].
  - destruct (Hcpu (SlurmCPU.Build 2 32 "lmp_mpi" "LAMMPS" true ""
                      0%nat 1%nat) [])
      as (_ & _ & Hfails); [reflexivity|by eexists|by eexists|].
    destruct (Hfails eq_refl eq_refl) as (w' & Hrun & Hargs & Hshell & Hfile).
    exists w'. split; [assumption|]. split; [exact Hargs|].
    split; [exact Hshell|exact Hfile].
Defined.

(** Two launches on [CPU()] right after import, the first with the options
    of the target themselves as the variables, the second with another
    dictionary. *)
Lemma local_launches_commands_CPU :
  ∃ w' : world,
    launches_ref (λ _, true) (OnCPU (CPU.Build 4 "lmp_mpi" CPU.args_default))
      [("in.melt", CPU.args_default); ("in.quench", Computer.args_default)]
      initial_world = Ok () w'
    ∧ shell w'
      = ["mpirun -n 4 lmp_mpi -in in.melt -var -in in.melt ";
         "mpirun -n 4 lmp_mpi -in in.quench "]
    ∧ files w' = ∅.
Proof.
  destruct (local_launches_commands (λ _, true)
              (OnCPU (CPU.Build 4 "lmp_mpi" CPU.args_default))
              [("in.melt", CPU.args_default);
               ("in.quench", Computer.args_default)]
              initial_world [])
    as (w' & Hrun & Hshell & Hfiles).
  - exact I.
  - reflexivity.
  - apply Forall_cons. split; [by eexists|].
    apply Forall_cons. split; [by eexists|]. constructor.
  - exists w'. split; [assumption|]. split; [|exact Hfiles].
    rewrite Hshell. vm_compute. reflexivity.
Defined.

(** A [SlurmGPU] that writes its script, launched twice. *)
Lemma launch_twice_SlurmGPU :
  let t := OnSlurmGPU (SlurmGPU.Build 1 "lmp" true "jobscript" 0%nat 1%nat) in
  let w := {| heap := [[("-sf", "kk")]; [("job-name", "melt")];
                       [("T", "300")]];
              files := ∅; shell := [] |} in
  ∃ (w1 w2 : world) (cmd : string),
    launch_ref (λ _, true) t "in.melt" 2%nat w = Ok () w1
    ∧ launch_ref (λ _, true) t "in.melt" 2%nat w1 = Ok () w2
    ∧ heap w2 = heap w1
    ∧ files w2 = files w1
    ∧ shell w1 = shell w ++ [cmd]
    ∧ shell w2 = shell w1 ++ [cmd].
Proof.
  intros t w.
  apply (launch_twice (λ _, true) t "in.melt" 2%nat w [("-sf", "kk")]).
  - reflexivity.
  - by eexists.
  - by eexists.
  - intros path Hpath. reflexivity.
Defined.
